(** * A contact form: validation engine and submission pipeline

    Shallow embedding of
      - [src/js/modules/class/_FormValidation.mjs] (class [Validation]), and
      - [src/js/modules/_submitContact.mjs]        (function [submitContact]).

    JavaScript strings are sequences of UTF-16 code units and are modelled
    as [list N]; the literals of the program are written as Rocq strings
    (UTF-8) and decoded by [u16].

    The DOM is modelled by the properties the two files read and write:
    the form controls, in the order
    [querySelectorAll('input, textarea, select')] enumerates them, and the
    other elements of the document the program reaches (labels and
    error-display elements; these are not form controls).  A control is
    identified by its position in that enumeration.  The content of an
    element is given by the markup it was parsed from.

    The selectors the program builds by pasting a name or an id between
    double quotes are kept as texts.  A name or an id made of code units
    that stand for themselves in a quoted string of CSS asks for the
    elements whose attribute has that value; how a text with other code
    units is read (an escape, a text that is no selector) is left to the
    host.

    Functions that throw return their exception; the built-ins [Number],
    number comparison and conversion, [RegExp] and the reading of such
    selectors are parameters ([Host]); the promise of [fetch] is modelled
    by the way it settles
    ([FetchOutcome]); what the program does to its environment is a list
    of [Effect]s. *)

From Stdlib Require Import List NArith ZArith Bool Arith Lia String Ascii.
From Stdlib Require Import Strings.Byte Numbers.DecimalString Permutation.
Import ListNotations.


(* ================================================================== *)
(** ** JavaScript strings *)

Module JSString.

Definition jsstring := list N.

(** UTF-8 bytes to UTF-16 code units (well-formed input). *)
Fixpoint utf16_of_utf8 (bs : list N) : jsstring :=
  match bs with
  | [] => []
  | b0 :: r0 =>
    if (b0 <? 128)%N then b0 :: utf16_of_utf8 r0 else
    match r0 with
    | [] => [b0]
    | b1 :: r1 =>
      if (b0 <? 224)%N then ((b0 mod 32) * 64 + b1 mod 64)%N :: utf16_of_utf8 r1 else
      match r1 with
      | [] => [b0; b1]
      | b2 :: r2 =>
        if (b0 <? 240)%N
        then ((b0 mod 16) * 4096 + (b1 mod 64) * 64 + b2 mod 64)%N :: utf16_of_utf8 r2
        else
        match r2 with
        | [] => [b0; b1; b2]
        | b3 :: r3 =>
          let cp := ((b0 mod 8) * 262144 + (b1 mod 64) * 4096
                     + (b2 mod 64) * 64 + b3 mod 64)%N in
          let v := (cp - 65536)%N in
          (55296 + v / 1024)%N :: (56320 + v mod 1024)%N :: utf16_of_utf8 r3
        end
      end
    end
  end.

(** A program literal. *)
Definition u16 (s : string) : jsstring :=
  utf16_of_utf8 (map Byte.to_N (list_byte_of_string s)).

Arguments u16 s : simpl never.

(** [a === b] on strings. *)
Fixpoint jseq (a b : jsstring) : bool :=
  match a, b with
  | [], [] => true
  | x :: a', y :: b' => (x =? y)%N && jseq a' b'
  | _, _ => false
  end.

(** ToBoolean of a string: the empty string is falsy. *)
Definition truthy (s : jsstring) : bool :=
  match s with [] => false | _ :: _ => true end.

(** ToBoolean of a value that is a string, [undefined] or [null]. *)
Definition truthyOpt (o : option jsstring) : bool :=
  match o with Some s => truthy s | None => false end.

(** [a || b] on strings. *)
Definition orElse (a b : jsstring) : jsstring := if truthy a then a else b.

(** ECMAScript LineTerminator: LF, CR, LS, PS. *)
Definition isLineTerminator (c : N) : bool :=
  ((c =? 10) || (c =? 13) || (c =? 8232) || (c =? 8233))%N.

(** ECMAScript WhiteSpace and LineTerminator: what [trim] removes and what
    [\s] matches. *)
Definition isWhiteSpace (c : N) : bool :=
  ((c =? 9) || (c =? 10) || (c =? 11) || (c =? 12) || (c =? 13) || (c =? 32)
   || (c =? 160) || (c =? 5760) || ((8192 <=? c) && (c <=? 8202))
   || (c =? 8232) || (c =? 8233) || (c =? 8239) || (c =? 8287)
   || (c =? 12288) || (c =? 65279))%N.

Arguments isLineTerminator c : simpl never.
Arguments isWhiteSpace c : simpl never.

Fixpoint trimStart (s : jsstring) : jsstring :=
  match s with
  | [] => []
  | c :: s' => if isWhiteSpace c then trimStart s' else s
  end.

Definition trimEnd (s : jsstring) : jsstring := rev (trimStart (rev s)).

(** [s.trim()] *)
Definition trim (s : jsstring) : jsstring := trimEnd (trimStart s).

(** [arr.join(sep)] *)
Fixpoint join (sep : jsstring) (arr : list jsstring) : jsstring :=
  match arr with
  | [] => []
  | [x] => x
  | x :: rest => x ++ sep ++ join sep rest
  end.

(** Template-literal conversion of an integer. *)
Definition showZ (z : Z) : jsstring :=
  u16 (NilEmpty.string_of_int (Z.to_int z)).

(** The lines of a text, split at LF. *)
Fixpoint lines (s : jsstring) : list jsstring :=
  match s with
  | [] => [[]]
  | c :: s' =>
    if (c =? 10)%N then [] :: lines s'
    else match lines s' with
         | l :: ls => (c :: l) :: ls
         | [] => [[c]]
         end
  end.

Definition beginsWithSpace (l : jsstring) : bool :=
  match l with c :: _ => isWhiteSpace c | [] => false end.

Fixpoint endsWithSpace (l : jsstring) : bool :=
  match l with
  | [] => false
  | c :: l' => match l' with [] => isWhiteSpace c | _ :: _ => endsWithSpace l' end
  end.

(** *** [text.replace(/^\n|\s+$|^ {4}/gm, '')]

    Flags [g] and [m]: [^] holds at the start of the input and after a
    LineTerminator, [$] at the end of the input and before a
    LineTerminator.  At each position the alternatives are tried in order;
    a match is dropped and the scan resumes after it. *)

(** [^]: the code unit before the position, if any. *)
Definition atLineStart (prev : option N) : bool :=
  match prev with None => true | Some p => isLineTerminator p end.

(** [$] *)
Definition atLineEnd (s : jsstring) : bool :=
  match s with [] => true | c :: _ => isLineTerminator c end.

(** [\s+$]: the length of the longest run of [\s] from the position after
    which [$] holds (greedy, then backtracking), [0] when there is none. *)
Fixpoint trailLen (s : jsstring) : nat :=
  match s with
  | [] => 0
  | c :: s' =>
    if isWhiteSpace c then
      match trailLen s' with
      | S k => S (S k)
      | O => if atLineEnd s' then 1 else 0
      end
    else 0
  end.

(** [ {4}] *)
Definition fourSpaces (s : jsstring) : bool :=
  match s with
  | a :: b :: c :: d :: _ => ((a =? 32) && (b =? 32) && (c =? 32) && (d =? 32))%N
  | _ => false
  end.

(** Length of the match of [/^\n|\s+$|^ {4}/m] at a position, [0] when no
    alternative matches there. *)
Definition matchLen (prev : option N) (s : jsstring) : nat :=
  match s with
  | [] => 0
  | c :: _ =>
    if atLineStart prev && (c =? 10)%N then 1
    else match trailLen s with
         | S k => S k
         | O => if atLineStart prev && fourSpaces s then 4 else 0
         end
  end.

(** The scan: [skip] code units of a match remain to be dropped. *)
Fixpoint scan (prev : option N) (skip : nat) (s : jsstring) : jsstring :=
  match s with
  | [] => []
  | c :: s' =>
    match skip with
    | S k => scan (Some c) k s'
    | O =>
      match matchLen prev s with
      | O => c :: scan (Some c) 0 s'
      | S k => scan (Some c) k s'
      end
    end
  end.

Definition replaceIndent (s : jsstring) : jsstring := scan None 0 s.

(** *** [JSON.stringify] of a string (QuoteJSONString) *)

Definition hexDigit (d : N) : N := if (d <? 10)%N then (48 + d)%N else (87 + d)%N.

(** [\uXXXX] *)
Definition unicodeEscape (c : N) : jsstring :=
  [92; 117; hexDigit (c / 4096 mod 16); hexDigit (c / 256 mod 16);
   hexDigit (c / 16 mod 16); hexDigit (c mod 16)]%N.

Definition isHighSurrogate (c : N) : bool := ((55296 <=? c) && (c <=? 56319))%N.
Definition isLowSurrogate (c : N) : bool := ((56320 <=? c) && (c <=? 57343))%N.

Definition quoteUnit (c : N) : jsstring :=
  if (c =? 8)%N then [92; 98]%N
  else if (c =? 9)%N then [92; 116]%N
  else if (c =? 10)%N then [92; 110]%N
  else if (c =? 12)%N then [92; 102]%N
  else if (c =? 13)%N then [92; 114]%N
  else if (c =? 34)%N then [92; 34]%N
  else if (c =? 92)%N then [92; 92]%N
  else if (c <? 32)%N || isHighSurrogate c || isLowSurrogate c then unicodeEscape c
  else [c].

Fixpoint quoteBody (s : jsstring) : jsstring :=
  match s with
  | [] => []
  | c :: rest =>
    if isHighSurrogate c then
      match rest with
      | d :: rest' =>
        if isLowSurrogate d then c :: d :: quoteBody rest'
        else unicodeEscape c ++ quoteBody rest
      | [] => unicodeEscape c
      end
    else quoteUnit c ++ quoteBody rest
  end.

Definition quoteJSONString (s : jsstring) : jsstring :=
  [34%N] ++ quoteBody s ++ [34%N].

End JSString.

Import JSString.

(* ================================================================== *)
(** ** The document *)

Module DOM.

(** The elements [querySelectorAll('input, textarea, select')] returns.
    [Input t]: an [input] element whose [type] property is [t]. *)
Inductive Element :=
| Input (type : jsstring)
| Textarea
| Select (multiple : bool).

(** A form control, by the properties and attributes the program reads,
    and the one it writes ([classList] holding ['is-error']). *)
Record Control := mkControl {
  element : Element;
  nameAttr : option jsstring;            (* the name attribute *)
  id : jsstring;                         (* input.id *)
  value : jsstring;                      (* input.value *)
  checked : bool;                        (* input.checked *)
  required : bool;                       (* input.required *)
  minlengthAttr : option jsstring;       (* getAttribute('minlength') *)
  maxlengthAttr : option jsstring;       (* getAttribute('maxlength') *)
  patternAttr : option jsstring;         (* getAttribute('pattern') *)
  title : jsstring;                      (* input.title *)
  errorMessage : option jsstring;        (* dataset.errorMessage *)
  errorId : option jsstring;             (* dataset.errorId *)
  radioGroupError : option jsstring;     (* dataset.radioGroupError *)
  isError : bool                         (* classList.contains('is-error') *)
}.

(** [input.type] *)
Definition type (c : Control) : jsstring :=
  match element c with
  | Input t => t
  | Textarea => u16 "textarea"
  | Select false => u16 "select-one"
  | Select true => u16 "select-multiple"
  end.

(** [input.name]: the name attribute, the empty string when it is absent. *)
Definition name (c : Control) : jsstring :=
  match nameAttr c with Some n => n | None => [] end.

(** *** Selectors

    The program builds its selectors by pasting [input.name] and
    [input.id] between double quotes, unescaped. *)

Definition QUOTE : jsstring := [34%N].

(** The template literal [`input[type="radio"][name="${n}"]`], followed
    by [:checked] or not. *)
Definition radioSelector (n : jsstring) (checkedOnly : bool) : jsstring :=
  u16 "input[type=" ++ QUOTE ++ u16 "radio" ++ QUOTE ++ u16 "][name="
  ++ QUOTE ++ n ++ QUOTE ++ u16 "]" ++ (if checkedOnly then u16 ":checked" else []).

(** The template literal [`[for="${i}"]`]. *)
Definition forSelector (i : jsstring) : jsstring :=
  u16 "[for=" ++ QUOTE ++ i ++ QUOTE ++ u16 "]".

(** The code units that stand for themselves in a quoted string of CSS:
    all but the double quote, which ends the string, the backslash, which
    starts an escape, the line breaks LF, FF and CR, which a string cannot
    hold, and NUL and the surrogates, which the tokenizer replaces. *)
Definition isCssPlain (c : N) : bool :=
  negb ((c =? 0) || (c =? 10) || (c =? 12) || (c =? 13) || (c =? 34) || (c =? 92)
        || isHighSurrogate c || isLowSurrogate c)%N.

Definition cssPlain (s : jsstring) : bool := forallb isCssPlain s.

(** The elements [input[type="radio"][name=v]] matches, for the value [v]
    its quoted string stands for: the [input] elements of type radio whose
    name attribute is there and is [v]. *)
Definition isRadioNamed (v : jsstring) (c : Control) : bool :=
  match element c, nameAttr c with
  | Input t, Some m => jseq t (u16 "radio") && jseq m v
  | _, _ => false
  end.

Definition setIsError (b : bool) (c : Control) : Control :=
  mkControl (element c) (nameAttr c) (id c) (value c) (checked c) (required c)
            (minlengthAttr c) (maxlengthAttr c) (patternAttr c) (title c)
            (errorMessage c) (errorId c) (radioGroupError c) b.

Definition setChecked (b : bool) (c : Control) : Control :=
  mkControl (element c) (nameAttr c) (id c) (value c) b (required c)
            (minlengthAttr c) (maxlengthAttr c) (patternAttr c) (title c)
            (errorMessage c) (errorId c) (radioGroupError c) (isError c).

Definition setValue (v : jsstring) (c : Control) : Control :=
  mkControl (element c) (nameAttr c) (id c) v (checked c) (required c)
            (minlengthAttr c) (maxlengthAttr c) (patternAttr c) (title c)
            (errorMessage c) (errorId c) (radioGroupError c) (isError c).

(** The other elements of the document the program reaches: through
    [getElementById] (error-display elements, labels) and through
    [querySelectorAll('[for="..."]')] (labels). *)
Record Node := mkNode {
  nodeId : jsstring;                     (* the id attribute *)
  htmlFor : option jsstring;             (* the for attribute *)
  hasError : bool;                       (* classList.contains('is-error') *)
  content : list jsstring                (* its children, see below *)
}.

(** The children of an element are given by the markup they were parsed
    from: [content] lists fragments of markup, and the children are the
    nodes the HTML parser makes of the first fragment, then those it makes
    of the second, and so on; [[]] is an element without children.  What
    [innerHTML] or [textContent] would read back from these nodes is not
    modelled: the program never reads them. *)

Definition setHasError (b : bool) (n : Node) : Node :=
  mkNode (nodeId n) (htmlFor n) b (content n).

(** [n.textContent = ''] *)
Definition clearContent (n : Node) : Node :=
  mkNode (nodeId n) (htmlFor n) (hasError n) [].

(** [n.insertAdjacentHTML('afterbegin', h)] *)
Definition insertAdjacentHTML (h : jsstring) (n : Node) : Node :=
  mkNode (nodeId n) (htmlFor n) (hasError n) (h :: content n).

(** The elements [[for=v]] matches, for the value [v] its quoted string
    stands for: those whose for attribute is there and is [v]. *)
Definition isLabelFor (v : jsstring) (n : Node) : bool :=
  match htmlFor n with Some f => jseq f v | None => false end.

(** [document.getElementById(i)] *)
Definition getElementById (i : jsstring) (ns : list Node) : option Node :=
  find (fun n => jseq (nodeId n) i) ns.

(** Apply [f] to the element [getElementById] returns. *)
Fixpoint updateById (i : jsstring) (f : Node -> Node) (ns : list Node) : list Node :=
  match ns with
  | [] => []
  | n :: ns' => if jseq (nodeId n) i then f n :: ns' else n :: updateById i f ns'
  end.

(** Apply [f] to every element a selector matches. *)
Definition updateAll {A} (sel : A -> bool) (f : A -> A) (l : list A) : list A :=
  map (fun x => if sel x then f x else x) l.

(** Apply [f] to the element at position [i]. *)
Fixpoint updateNth {A} (i : nat) (f : A -> A) (l : list A) : list A :=
  match l, i with
  | [], _ => []
  | x :: l', O => f x :: l'
  | x :: l', S j => x :: updateNth j f l'
  end.

End DOM.

(* ================================================================== *)
(** ** The host

    Built-ins of the JavaScript engine the program calls and this
    development leaves abstract. *)

Class Host := {
  JSNumber : Type;
  (** [Number(s)] *)
  Number : jsstring -> JSNumber;
  (** [n <= len] for a string length [len] *)
  leLength : JSNumber -> nat -> bool;
  (** the template-literal conversion of a number *)
  numberToString : JSNumber -> jsstring;
  (** [new RegExp(p).test(v)]; [None] when [new RegExp(p)] throws *)
  RegExp_test : jsstring -> jsstring -> option bool;
  (** How [querySelectorAll] reads a selector text of the program into
      which a name or an id with code units that are not plain has been
      pasted: [None] when the text is not a selector and the call throws;
      [Some v] when it is one whose quoted string stands for the value
      [v], the escapes resolved. *)
  selectorValue : jsstring -> option jsstring
}.

(** What the program does to its environment. *)
Inductive Effect :=
| PreventDefault
| Focus (input : nat)
| ConsoleLog (msg : jsstring)
| Fetch (url method body : jsstring)
| Alert (msg : jsstring).

(** How the promise [fetch] returns settles. *)
Inductive FetchOutcome :=
| Fulfilled (status : N) (responseBody : jsstring)
| Rejected
| Pending.

(* ================================================================== *)
(** ** [_submitContact.mjs] *)

Module SubmitContact.

(** The variables [type], [name], [companyName], [email], [detail], [adv]
    of [submitContact]. *)
Record Values := mkValues {
  type : jsstring;
  name : jsstring;
  companyName : jsstring;
  email : jsstring;
  detail : jsstring;
  adv : jsstring
}.

Definition init : Values := mkValues [] [] [] [] [] [].

(** The callback of [inputs.forEach] in [getValues]. *)
Definition collect (v : Values) (input : DOM.Control) : Values :=
  if jseq (DOM.type input) (u16 "radio") then
    if jseq (DOM.value input) (u16 "radio01") then
      mkValues (u16 "お仕事のご依頼・ご相談") (name v) (companyName v) (email v) (detail v) (adv v)
    else if jseq (DOM.value input) (u16 "radio02") then
      mkValues (u16 "お見積りのご依頼") (name v) (companyName v) (email v) (detail v) (adv v)
    else if jseq (DOM.value input) (u16 "radio03") then
      mkValues (u16 "採用について") (name v) (companyName v) (email v) (detail v) (adv v)
    else if jseq (DOM.value input) (u16 "radio04") then
      mkValues (u16 "その他") (name v) (companyName v) (email v) (detail v) (adv v)
    else v
  else if jseq (DOM.name input) (u16 "name") then
    mkValues (type v) (DOM.value input) (companyName v) (email v) (detail v) (adv v)
  else if jseq (DOM.name input) (u16 "companyName") then
    mkValues (type v) (name v) (DOM.value input) (email v) (detail v) (adv v)
  else if jseq (DOM.name input) (u16 "email") then
    mkValues (type v) (name v) (companyName v) (DOM.value input) (detail v) (adv v)
  else if jseq (DOM.name input) (u16 "detail") then
    mkValues (type v) (name v) (companyName v) (email v) (DOM.value input) (adv v)
  else if jseq (DOM.name input) (u16 "adv") then
    if jseq (DOM.value input) (u16 "search") then
      mkValues (type v) (name v) (companyName v) (email v) (detail v) (u16 "Google/Yahoo検索")
    else if jseq (DOM.value input) (u16 "sns") then
      mkValues (type v) (name v) (companyName v) (email v) (detail v) (u16 "SNS")
    else if jseq (DOM.value input) (u16 "friends") then
      mkValues (type v) (name v) (companyName v) (email v) (detail v) (u16 "友人や知人")
    else if jseq (DOM.value input) (u16 "blog") then
      mkValues (type v) (name v) (companyName v) (email v) (detail v) (u16 "ブログ")
    else if jseq (DOM.value input) (u16 "other") then
      mkValues (type v) (name v) (companyName v) (email v) (detail v) (u16 "その他")
    else v
  else v.

(** [getValues(form)]: the variables after the loop over
    [form.querySelectorAll('input, textarea, select')]. *)
Definition getValues (inputs : list DOM.Control) : Values :=
  fold_left collect inputs init.

Definition LF : jsstring := [10%N].

(** The six spaces that indent the template in the source. *)
Definition indent : jsstring := u16 "      ".

(** The template literal of [payload.text], before [replace]. *)
Definition template (v : Values) : jsstring :=
  LF ++ indent ++ u16 "お問い合わせがありました。" ++
  LF ++ indent ++ u16 "PON DESIGNをどちらでお知りになりましたか？：" ++ adv v ++
  LF ++ indent ++ u16 "お問合せ種別：" ++ type v ++
  LF ++ indent ++ u16 "お名前：" ++ name v ++
  LF ++ indent ++ u16 "会社名：" ++ orElse (companyName v) (u16 "記入なし") ++
  LF ++ indent ++ u16 "メールアドレス：" ++ email v ++
  LF ++ indent ++ u16 "【お問合せ内容】" ++
  LF ++ indent ++ detail v ++
  LF ++ indent.

(** [payload.text] *)
Definition payloadText (v : Values) : jsstring := replaceIndent (template v).

(** A JavaScript object with string-valued properties, in property order. *)
Definition JSObject := list (jsstring * jsstring).

(** [payload] *)
Definition payload (v : Values) : JSObject := [(u16 "text", payloadText v)].

(** [JSON.stringify] of such an object. *)
Definition stringify (o : JSObject) : jsstring :=
  [123%N] ++
  join [44%N] (map (fun kv => quoteJSONString (fst kv) ++ [58%N] ++ quoteJSONString (snd kv)) o)
  ++ [125%N].

Definition url : jsstring := u16 "hogehogehogehoge".

Definition ACKNOWLEDGMENT : jsstring := u16 "送信が完了しました。追ってご連絡いたします！".

(** [fetchValues()]: the request, then what its continuation does once the
    promise has settled as [net]. *)
Definition fetchValues (v : Values) (net : FetchOutcome) : list Effect :=
  Fetch url (u16 "POST") (stringify (payload v)) ::
  match net with
  | Fulfilled _ _ => [Alert ACKNOWLEDGMENT]
  | Rejected => []
  | Pending => []
  end.

(** [submitContact(form)]: the form as the call leaves it, and the effects. *)
Definition submitContact (form : list DOM.Control) (net : FetchOutcome)
  : list DOM.Control * list Effect :=
  (form, fetchValues (getValues form) net).

End SubmitContact.

(* ================================================================== *)
(** ** [_FormValidation.mjs] *)

Module Validation.

(** *** Properties of the elements the rules read *)

Definition isAsciiWhitespace (c : N) : bool :=
  ((c =? 9) || (c =? 10) || (c =? 12) || (c =? 13) || (c =? 32))%N.

Definition isAsciiDigit (c : N) : bool := ((48 <=? c) && (c <=? 57))%N.

Fixpoint skipAsciiWhitespace (s : jsstring) : jsstring :=
  match s with
  | [] => []
  | c :: s' => if isAsciiWhitespace c then skipAsciiWhitespace s' else s
  end.

Fixpoint digitsValue (acc : Z) (s : jsstring) : Z :=
  match s with
  | [] => acc
  | c :: s' =>
    if isAsciiDigit c then digitsValue (acc * 10 + (Z.of_N c - 48))%Z s' else acc
  end.

(** HTML's rules for parsing integers. *)
Definition parseInteger (s : jsstring) : option Z :=
  match skipAsciiWhitespace s with
  | [] => None
  | c :: r =>
    let negative := (c =? 45)%N in
    let r' := if ((c =? 45) || (c =? 43))%N then r else c :: r in
    match r' with
    | [] => None
    | d :: _ =>
      if isAsciiDigit d
      then Some (if negative then - digitsValue 0 r' else digitsValue 0 r')%Z
      else None
    end
  end.

(** HTML's rules for parsing non-negative integers. *)
Definition parseNonNegativeInteger (s : jsstring) : option Z :=
  match parseInteger s with
  | Some z => if (z <? 0)%Z then None else Some z
  | None => None
  end.

(** [input.maxLength]: the maxlength attribute as a non-negative integer,
    [-1] when it is absent or not one; [None] is [undefined] (a [select]
    element has no such property). *)
Definition maxLengthProp (c : DOM.Control) : option Z :=
  match DOM.element c with
  | DOM.Select _ => None
  | _ =>
    Some match DOM.maxlengthAttr c with
         | None => (-1)%Z
         | Some a =>
           match parseNonNegativeInteger a with
           | Some n => if (n <=? 2147483647)%Z then n else (-1)%Z
           | None => (-1)%Z
           end
         end
  end.

(** [input.pattern]: [None] is [undefined] (only [input] elements have the
    property). *)
Definition patternProp (c : DOM.Control) : option jsstring :=
  match DOM.element c with
  | DOM.Input _ => Some match DOM.patternAttr c with Some p => p | None => [] end
  | _ => None
  end.

(** What the program throws: the [SyntaxError] of [new RegExp], the
    [TypeError] of a property access on [null], and the [DOMException] of
    name [SyntaxError] of [querySelectorAll]. *)
Inductive Exception := SyntaxError | TypeError | SelectorSyntaxError.

Definition REQUIRED_MESSAGE : jsstring := u16 "このフィールドは入力必須です。".
Definition PATTERN_MESSAGE : jsstring := u16 "指定されている形式で入力してください。".

(** *** [this.validate] *)

Section Validate.

Context `{Host}.

(** The controls of the constructor's [form]. *)
Variable form : list DOM.Control.

(** The value the quoted string of a selector stands for when [n] has been
    pasted between its double quotes to make [text]: [n] itself when all
    its code units are plain, what the host reads otherwise; [None] when
    [querySelectorAll(text)] throws. *)
Definition pastedValue (n text : jsstring) : option jsstring :=
  if DOM.cssPlain n then Some n else selectorValue text.

Definition minLength (_input : DOM.Control) : jsstring :=
  if negb (truthyOpt (DOM.minlengthAttr _input)) then [] else
  let input := _input in
  let minlength := Number (match DOM.minlengthAttr input with Some a => a | None => [] end) in
  if leLength minlength (List.length (trim (DOM.value input))) then []
  else numberToString minlength ++ u16 "文字以上入力してください。".

Definition maxLength (_input : DOM.Control) : jsstring :=
  if negb (truthyOpt (DOM.maxlengthAttr _input)) then [] else
  let input := _input in
  match maxLengthProp input with
  | Some m =>
    if (Z.of_nat (List.length (trim (DOM.value input))) <=? m)%Z then []
    else showZ m ++ u16 "文字以下で入力してください。"
  | None => u16 "undefined" ++ u16 "文字以下で入力してください。"
  end.

(** [None]: [form.querySelectorAll] throws. *)
Definition required (_formControls : DOM.Control) : option jsstring :=
  if negb (DOM.required _formControls) then Some [] else
  let input := _formControls in
  if jseq (DOM.type input) (u16 "checkbox") then
    Some (if DOM.checked input then [] else REQUIRED_MESSAGE)
  else if jseq (DOM.type input) (u16 "radio") then
    match pastedValue (DOM.name input) (DOM.radioSelector (DOM.name input) true) with
    | None => None
    | Some v =>
      let isChecked :=
        negb (List.length (filter (fun r => DOM.isRadioNamed v r && DOM.checked r) form)
              =? 0) in
      Some (if isChecked then [] else REQUIRED_MESSAGE)
    end
  else if jseq (trim (DOM.value input)) [] then
    if truthyOpt (DOM.errorMessage input)
    then Some match DOM.errorMessage input with Some m => m | None => [] end
    else Some REQUIRED_MESSAGE
  else Some [].

(** [None]: [new RegExp(input.pattern)] throws. *)
Definition pattern (_input : DOM.Control) : option jsstring :=
  if negb (truthyOpt (DOM.patternAttr _input)) || negb (DOM.required _input)
  then Some [] else
  let input := _input in
  match patternProp input with
  | Some p =>
    match RegExp_test p (DOM.value input) with
    | None => None
    | Some true => Some []
    | Some false => Some (orElse (DOM.title input) PATTERN_MESSAGE)
    end
  | None => Some []   (* new RegExp(undefined) matches every string *)
  end.

End Validate.

(** *** [result] *)

Definition BR : jsstring := u16 "<br>".

Definition result (messages : list jsstring) : jsstring :=
  join BR (filter truthy messages).

(** *** [getErrorId] *)

Definition getErrorId (input : DOM.Control) : jsstring :=
  if truthyOpt (DOM.radioGroupError input)
  then match DOM.radioGroupError input with Some e => e | None => [] end
  else if truthyOpt (DOM.errorId input)
  then match DOM.errorId input with Some e => e | None => [] end ++ u16 "-error"
  else DOM.id input ++ u16 "-error".

(** *** The state an instance of [Validation] works on

    [controls]: [this.inputs], with the current state of the elements;
    [nodes]: the other elements of the document;
    [isInvalid]: [this.isInvalid], a [Map] keyed by the elements (here by
    their position in [this.inputs]), in insertion order. *)
Record State := mkState {
  controls : list DOM.Control;
  nodes : list DOM.Node;
  isInvalid : list (nat * bool)
}.

(** [map.set(k, v)]: an existing key keeps its place. *)
Fixpoint mapSet (k : nat) (v : bool) (m : list (nat * bool)) : list (nat * bool) :=
  match m with
  | [] => [(k, v)]
  | (k', v') :: m' => if k =? k' then (k, v) :: m' else (k', v') :: mapSet k v m'
  end.

(** [map.get(k)] *)
Fixpoint mapGet (k : nat) (m : list (nat * bool)) : option bool :=
  match m with
  | [] => None
  | (k', v) :: m' => if k =? k' then Some v else mapGet k m'
  end.

(** The state after [new Validation(form)]. *)
Definition attach (form : list DOM.Control) (document : list DOM.Node) : State :=
  mkState form document [].

(** *** [getHandler] *)

(** The branch of [getHandler] an evaluation ends in. *)
Inductive Branch :=
| InvalidShown      (* the message is written to the error element *)
| InvalidSilent     (* the [else] of [if (errorMessage)] *)
| Valid.

Inductive Completion :=
| Normal (b : Branch)
| Throw (e : Exception).

Section Handlers.

Context `{Host}.

(** *** [resetInputErrorState]

    The state it leaves, and the exception when a [querySelectorAll]
    throws: the first one is called before anything is changed, the second
    one with the text [getHandler] has called it with before. *)
Definition resetInputErrorState (i : nat) (input : DOM.Control) (s : State)
  : State * option Exception :=
  let inputElms :=
    if jseq (DOM.type input) (u16 "radio")
    then match pastedValue (DOM.name input) (DOM.radioSelector (DOM.name input) false) with
         | Some v => Some (DOM.updateAll (DOM.isRadioNamed v))
         | None => None
         end
    else Some (DOM.updateNth i) in
  match inputElms with
  | None => (s, Some SelectorSyntaxError)
  | Some forEachInputElm =>
    let errorId := getErrorId input in
    match pastedValue (DOM.id input) (DOM.forSelector (DOM.id input)) with
    | None => (s, Some SelectorSyntaxError)
    | Some labels =>
      let nodes1 := DOM.updateById errorId DOM.clearContent (nodes s) in
      let controls1 := forEachInputElm (DOM.setIsError false) (controls s) in
      let nodes2 := DOM.updateAll (DOM.isLabelFor labels) (DOM.setHasError false) nodes1 in
      let nodes3 :=
        if truthyOpt (DOM.errorId input)
        then DOM.updateById (match DOM.errorId input with Some e => e | None => [] end)
                            (DOM.setHasError false) nodes2
        else nodes2 in
      (mkState controls1 nodes3 (isInvalid s), None)
    end
  end.

(** The message of a control: [result([minLength, maxLength, required,
    pattern])], the rules called in this order; the exception when
    [required] or [pattern] throws. *)
Definition errorMessageOf (form : list DOM.Control) (input : DOM.Control)
  : Exception + jsstring :=
  match required form input with
  | None => inl SelectorSyntaxError
  | Some r =>
    match pattern input with
    | None => inl SyntaxError
    | Some p => inr (result [minLength input; maxLength input; r; p])
    end
  end.

Definition handle (i : nat) (input : DOM.Control) (s : State) : State * Completion :=
  let errorId := getErrorId input in
  let error := DOM.getElementById errorId (nodes s) in
  match pastedValue (DOM.id input) (DOM.forSelector (DOM.id input)) with
  | None => (s, Throw SelectorSyntaxError)
  | Some labels =>
    let isValid := true in
    match errorMessageOf (controls s) input with
    | inl e => (s, Throw e)
    | inr errorMessage =>
      let isValid := if isValid then jseq errorMessage [] else isValid in
      if negb isValid then
        let isInvalid1 := mapSet i true (isInvalid s) in
        let controls1 := DOM.updateNth i (DOM.setIsError true) (controls s) in
        let nodes1 := DOM.updateAll (DOM.isLabelFor labels) (DOM.setHasError true) (nodes s) in
        if truthy errorMessage then
          match error with
          | None => (mkState controls1 nodes1 isInvalid1, Throw TypeError)
          | Some _ =>
            (mkState controls1
                     (DOM.updateById errorId
                        (fun e => DOM.insertAdjacentHTML errorMessage (DOM.clearContent e))
                        nodes1)
                     isInvalid1,
             Normal InvalidShown)
          end
        else
          (mkState (DOM.updateNth i (DOM.setIsError false) controls1) nodes1
                   (mapSet i false isInvalid1),
           Normal InvalidSilent)
      else
        match resetInputErrorState i input
                (mkState (controls s) (nodes s) (mapSet i false (isInvalid s))) with
        | (s', None) => (s', Normal Valid)
        | (s', Some e) => (s', Throw e)
        end
    end
  end.

(** [getHandler(input)] for the control at position [i] of [this.inputs]
    (the handlers are bound to these only). *)
Definition getHandler (i : nat) (s : State) : State * Completion :=
  match nth_error (controls s) i with
  | Some input => handle i input s
  | None => (s, Throw TypeError)
  end.

(** *** [addEvents] *)

(** The listener of ['input'] on the control at position [i]. *)
Definition onInput (i : nat) (s : State) : State := fst (getHandler i s).

(** The user edits the control at position [i]: its value becomes [v],
    then the listener of ['input'] runs. *)
Definition typeInto (i : nat) (v : jsstring) (s : State) : State :=
  onInput i (mkState (DOM.updateNth i (DOM.setValue v) (controls s))
                     (nodes s) (isInvalid s)).

(** [this.inputs.forEach((input) => { getHandler(input) })] *)
Fixpoint forEach (inputs : list nat) (s : State) : State * option Exception :=
  match inputs with
  | [] => (s, None)
  | i :: rest =>
    match getHandler i s with
    | (s', Normal _) => forEach rest s'
    | (s', Throw e) => (s', Some e)
    end
  end.

(** How the click listener ends. *)
Inductive Returned :=
| ReturnFalse
| ReturnUndefined
| Thrown (e : Exception).

(** The first entry of [this.isInvalid] whose state is [true]. *)
Definition firstInvalid (m : list (nat * bool)) : option nat :=
  match find (fun kv => snd kv) m with
  | Some kv => Some (fst kv)
  | None => None
  end.

(** The listener of ['click'] on the submit button. *)
Definition onClick (s : State) (net : FetchOutcome) : State * list Effect * Returned :=
  match forEach (seq 0 (List.length (controls s))) s with
  | (s1, Some e) => (s1, [PreventDefault], Thrown e)
  | (s1, None) =>
    match firstInvalid (isInvalid s1) with
    | Some input => (s1, [PreventDefault; Focus input], ReturnFalse)
    | None =>
      (s1,
       PreventDefault :: ConsoleLog (u16 "OK!")
         :: snd (SubmitContact.submitContact (controls s1) net),
       ReturnUndefined)
    end
  end.

End Handlers.

End Validation.

(* ================================================================== *)
(** ** Concrete forms and a concrete host *)

Module Examples.

Definition blank : DOM.Control :=
  DOM.mkControl (DOM.Input (u16 "text")) None [] [] false false
                None None None [] None None None false.

(** [<input type="radio" name=n value=v>], checked or not. *)
Definition radio (n v : string) (isChecked : bool) : DOM.Control :=
  DOM.mkControl (DOM.Input (u16 "radio")) (Some (u16 n)) [] (u16 v) isChecked false
                None None None [] None None None false.

(** [<input type="text" name=n>] holding [v]. *)
Definition field (n v : string) : DOM.Control :=
  DOM.mkControl (DOM.Input (u16 "text")) (Some (u16 n)) [] (u16 v) false false
                None None None [] None None None false.

(** [<textarea name=n>] holding [v]. *)
Definition textarea (n v : string) : DOM.Control :=
  DOM.mkControl DOM.Textarea (Some (u16 n)) [] (u16 v) false false
                None None None [] None None None false.

(** The inquiry-type group and the referral-source group as radio groups,
    with "radio01" and "sns" the checked members. *)
Definition contactForm : list DOM.Control :=
  [ radio "category" "radio01" true;
    radio "category" "radio02" false;
    radio "category" "radio03" false;
    radio "category" "radio04" false;
    field "name" "Yamada";
    field "companyName" "";
    field "email" "yamada@example.com";
    textarea "detail" "hello";
    radio "adv" "search" false;
    radio "adv" "sns" true;
    radio "adv" "friends" false;
    radio "adv" "blog" false;
    radio "adv" "other" false ].

(** The same form with other members checked: "radio04" and "other". *)
Definition contactForm' : list DOM.Control :=
  [ radio "category" "radio01" false;
    radio "category" "radio02" false;
    radio "category" "radio03" false;
    radio "category" "radio04" true;
    field "name" "Yamada";
    field "companyName" "";
    field "email" "yamada@example.com";
    textarea "detail" "hello";
    radio "adv" "search" false;
    radio "adv" "sns" false;
    radio "adv" "friends" false;
    radio "adv" "blog" false;
    radio "adv" "other" true ].

(** A company name typed with a space in front. *)
Definition companyForm : list DOM.Control :=
  [ field "name" "Yamada";
    field "companyName" " Acme";
    field "email" "yamada@example.com";
    textarea "detail" "hello" ].

(** A host for the examples.  [Number] is given on strings of decimal
    digits, where it is the number they denote ([None] stands for [NaN],
    returned for every other string); [RegExp_test] is given for the empty
    pattern, which matches every string, and refuses the others, of which
    the examples have a single one, ["("], that is no regular expression;
    [selectorValue] refuses every text: besides plain names and ids the
    examples paste only an id with a double quote in its middle, which
    leaves a text that is no selector. *)
Definition exampleHost : Host :=
  {| JSNumber := option Z;
     Number := fun s =>
       if forallb Validation.isAsciiDigit s then Some (Validation.digitsValue 0 s) else None;
     leLength := fun n len =>
       match n with Some z => (z <=? Z.of_nat len)%Z | None => false end;
     numberToString := fun n =>
       match n with Some z => showZ z | None => u16 "NaN" end;
     RegExp_test := fun p v => if truthy p then None else Some true;
     selectorValue := fun _ => None |}.

(** [<input type="text" id=i required>] holding [v]. *)
Definition requiredField (i v : string) : DOM.Control :=
  DOM.mkControl (DOM.Input (u16 "text")) (Some (u16 i)) (u16 i) (u16 v) false true
                None None None [] None None None false.

(** [<input type="text" id=i required minlength=m>] holding [v]. *)
Definition minlengthField (i m v : string) : DOM.Control :=
  DOM.mkControl (DOM.Input (u16 "text")) (Some (u16 i)) (u16 i) (u16 v) false true
                (Some (u16 m)) None None [] None None None false.

(** [<input type="radio" name=n id=i data-radio-group-error=e>], required
    or not, checked or not. *)
Definition groupRadio (n i e : string) (isRequired isChecked : bool) : DOM.Control :=
  DOM.mkControl (DOM.Input (u16 "radio")) (Some (u16 n)) (u16 i) (u16 i) isChecked
                isRequired None None None [] None None (Some (u16 e)) false.

(** [<p id=i></p>], an error-display element. *)
Definition errorElement (i : string) : DOM.Node :=
  DOM.mkNode (u16 i) None false [].

(** [<label for=f>] *)
Definition label (f : string) : DOM.Node :=
  DOM.mkNode [] (Some (u16 f)) false [].

(** Two required text fields, both empty. *)
Definition twoFields : Validation.State :=
  Validation.attach
    [ requiredField "first" ""; requiredField "second" "" ]
    [ label "first"; errorElement "first-error";
      label "second"; errorElement "second-error" ].

(** A required text field of at least three characters, empty. *)
Definition shortField : Validation.State :=
  Validation.attach
    [ minlengthField "code" "3" "" ]
    [ label "code"; errorElement "code-error" ].

(** A radio group of which only the first member is marked required;
    no member is checked. *)
Definition radioGroup : Validation.State :=
  Validation.attach
    [ groupRadio "plan" "plan-a" "plan-error" true false;
      groupRadio "plan" "plan-b" "plan-error" false false ]
    [ label "plan-a"; label "plan-b"; errorElement "plan-error" ].

(** The same group with its second member checked. *)
Definition radioGroupChecked : Validation.State :=
  Validation.attach
    [ groupRadio "plan" "plan-a" "plan-error" true false;
      groupRadio "plan" "plan-b" "plan-error" false true ]
    [ label "plan-a"; label "plan-b"; errorElement "plan-error" ].

End Examples.

(* ================================================================== *)
(** ** Notions the statements below use *)

Section Notions.

Import SubmitContact.

(** The category values of the inquiry-type radios. *)
Definition isCategoryValue (v : jsstring) : bool :=
  jseq v (u16 "radio01") || jseq v (u16 "radio02")
  || jseq v (u16 "radio03") || jseq v (u16 "radio04").

(** The label [getValues] assigns for a category value (the inner
    [switch] of its first case). *)
Definition categoryLabel (v : jsstring) : jsstring :=
  if jseq v (u16 "radio01") then u16 "お仕事のご依頼・ご相談"
  else if jseq v (u16 "radio02") then u16 "お見積りのご依頼"
  else if jseq v (u16 "radio03") then u16 "採用について"
  else if jseq v (u16 "radio04") then u16 "その他"
  else [].

(** A control of type radio whose value is one of radio01..radio04. *)
Definition isCategoryRadio (c : DOM.Control) : bool :=
  jseq (DOM.type c) (u16 "radio") && isCategoryValue (DOM.value c).

(** No whitespace stands at the end of the text or before a
    LineTerminator. *)
Fixpoint noTrailingSpace (t : jsstring) : bool :=
  match t with
  | [] => true
  | c :: t' => (negb (isWhiteSpace c) || negb (atLineEnd t')) && noTrailingSpace t'
  end.

(** The number of whitespace code units a text starts with. *)
Fixpoint leadingSpaces (s : jsstring) : nat :=
  match s with
  | [] => 0
  | c :: s' => if isWhiteSpace c then S (leadingSpaces s') else 0
  end.

(** The code unit before the position reached after [a]. *)
Fixpoint lastOr (a : jsstring) (p : option N) : option N :=
  match a with
  | [] => p
  | c :: a' => lastOr a' (Some c)
  end.

Definition noLineTerminator (s : jsstring) : bool :=
  forallb (fun c => negb (isLineTerminator c)) s.

Definition sixSpaces : jsstring := [32; 32; 32; 32; 32; 32]%N.

(** The template up to the label of the company name, the label
    included. *)
Definition beforeCompany (v : Values) : jsstring :=
  LF ++ indent ++ u16 "お問い合わせがありました。" ++
  LF ++ indent ++ u16 "PON DESIGNをどちらでお知りになりましたか？：" ++ adv v ++
  LF ++ indent ++ u16 "お問合せ種別：" ++ type v ++
  LF ++ indent ++ u16 "お名前：" ++ name v ++
  LF ++ indent ++ u16 "会社名：".

(** The template after the label of the e-mail address. *)
Definition afterMailLabel (v : Values) : jsstring :=
  email v ++
  LF ++ indent ++ u16 "【お問合せ内容】" ++
  LF ++ indent ++ detail v ++
  LF ++ indent.

(** A control whose value [getValues] stores in [companyName]. *)
Definition isCompanyField (c : DOM.Control) : bool :=
  negb (jseq (DOM.type c) (u16 "radio")) && jseq (DOM.name c) (u16 "companyName").

(** Two controls that differ at most in their error marker. *)
Definition sameControl (a b : DOM.Control) : Prop :=
  DOM.setIsError false a = DOM.setIsError false b.

(** Two lists of controls that differ at most in the error markers. *)
Definition sameInputs (cs cs' : list DOM.Control) : Prop :=
  map (DOM.setIsError false) cs = map (DOM.setIsError false) cs'.

(** Two states of the same document: the same controls up to the error
    markers, the same elements with the same ids. *)
Definition sameDocument (s s' : Validation.State) : Prop :=
  sameInputs (Validation.controls s) (Validation.controls s')
  /\ map DOM.nodeId (Validation.nodes s) = map DOM.nodeId (Validation.nodes s').

(** The keys of [this.isInvalid], in insertion order. *)
Definition keys (m : list (nat * bool)) : list nat := map fst m.

Fixpoint distinct (l : list nat) : bool :=
  match l with
  | [] => true
  | k :: l' => negb (existsb (Nat.eqb k) l') && distinct l'
  end.

(** [this.isInvalid] is a map whose keys are controls of [this.inputs]. *)
Definition wellFormed (s : Validation.State) : bool :=
  distinct (keys (Validation.isInvalid s))
  && forallb (fun k => k <? List.length (Validation.controls s))
             (keys (Validation.isInvalid s)).


(** The record after [forEach]: each control of [inputs] set in turn. *)
Definition setAll (v : nat -> bool) (inputs : list nat) (m : list (nat * bool))
  : list (nat * bool) :=
  fold_left (fun m i => Validation.mapSet i (v i) m) inputs m.


(** The claim's words for the message of a control: the messages of the
    rules that are not empty, one after the other, with a line break
    between a message and the next one. *)
Fixpoint concatenation (ms : list jsstring) : jsstring :=
  match ms with
  | [] => []
  | m :: rest =>
    if truthy m
    then if truthy (concatenation rest)
         then m ++ Validation.BR ++ concatenation rest
         else m
    else concatenation rest
  end.

Context `{Host}.

(** [querySelectorAll(text)] does not throw, [text] being a selector of
    the program with [n] pasted between its double quotes. *)
Definition accepted (n text : jsstring) : Prop :=
  DOM.cssPlain n = true \/ selectorValue text <> None.

(** The control at position [i] passes every rule. *)
Definition valid (s : Validation.State) (i : nat) : bool :=
  match nth_error (Validation.controls s) i with
  | Some input =>
    match Validation.errorMessageOf (Validation.controls s) input with
    | inr [] => true
    | _ => false
    end
  | None => false
  end.

(** The evaluation of the control at position [i] throws. *)
Definition throws (s : Validation.State) (i : nat) : bool :=
  match snd (Validation.getHandler i s) with
  | Validation.Throw _ => true
  | Validation.Normal _ => false
  end.

(** Two lists of controls that differ at most in the values and the
    checked states: what the user changes. *)
Definition edited (cs cs' : list DOM.Control) : Prop :=
  map (fun c => DOM.setChecked false (DOM.setValue [] c)) cs
  = map (fun c => DOM.setChecked false (DOM.setValue [] c)) cs'.

(** The states an instance goes through: the one after the constructor;
    then the user edits controls and the listener of ['input'] of a
    control runs, or the user clicks on the submit button. *)
Inductive reachable : Validation.State -> Prop :=
| reach_attach (form : list DOM.Control) (document : list DOM.Node) :
    reachable (Validation.attach form document)
| reach_input (i : nat) (cs' : list DOM.Control) (s : Validation.State) :
    reachable s -> edited (Validation.controls s) cs' ->
    reachable (Validation.onInput i
                 (Validation.mkState cs' (Validation.nodes s) (Validation.isInvalid s)))
| reach_click (s : Validation.State) (net : FetchOutcome) :
    reachable s -> reachable (fst (fst (Validation.onClick s net))).

End Notions.

(* ================================================================== *)
(** ** Further notions *)

Section FurtherNotions.

Import SubmitContact.

(** The labels of the inquiry types, as [getValues] writes them. *)
Definition categoryLabels : list jsstring :=
  [ u16 "お仕事のご依頼・ご相談"; u16 "お見積りのご依頼"; u16 "採用について"; u16 "その他" ].

(** The labels of the referral sources, as [getValues] writes them. *)
Definition advLabels : list jsstring :=
  [ u16 "Google/Yahoo検索"; u16 "SNS"; u16 "友人や知人"; u16 "ブログ"; u16 "その他" ].

(** The referral values [getValues] knows. *)
Definition isAdvValue (v : jsstring) : bool :=
  jseq v (u16 "search") || jseq v (u16 "sns") || jseq v (u16 "friends")
  || jseq v (u16 "blog") || jseq v (u16 "other").

(** The label [getValues] assigns for a referral value (the inner
    [switch] of its last case). *)
Definition advLabel (v : jsstring) : jsstring :=
  if jseq v (u16 "search") then u16 "Google/Yahoo検索"
  else if jseq v (u16 "sns") then u16 "SNS"
  else if jseq v (u16 "friends") then u16 "友人や知人"
  else if jseq v (u16 "blog") then u16 "ブログ"
  else if jseq v (u16 "other") then u16 "その他"
  else [].

(** A control named [n] that is not of type radio. *)
Definition isNamed (n : jsstring) (c : DOM.Control) : bool :=
  negb (jseq (DOM.type c) (u16 "radio")) && jseq (DOM.name c) n.

(** The value of the last control of a form that is named [n] and is not
    a radio; the empty string when there is none. *)
Definition lastValue (n : jsstring) (form : list DOM.Control) : jsstring :=
  match find (isNamed n) (rev form) with
  | Some c => DOM.value c
  | None => []
  end.

(** A control named "adv", not a radio, whose value is a known referral
    value. *)
Definition isAdvControl (c : DOM.Control) : bool :=
  isNamed (u16 "adv") c && isAdvValue (DOM.value c).

(** The code units of a text that are not whitespace, in order. *)
Definition nonSpaces (s : jsstring) : jsstring :=
  filter (fun c => negb (isWhiteSpace c)) s.

(** A label of the template: not empty, no whitespace at either end and
    no LineTerminator. *)
Definition isLabel (l : jsstring) : bool :=
  truthy l && negb (beginsWithSpace l) && negb (endsWithSpace l)
  && noLineTerminator l.


(** Two lists of elements that differ at most in the error markers and
    in the content: the same ids and [for] attributes, in the same order. *)
Definition sameNodes (ns ns' : list DOM.Node) : Prop :=
  map (fun n => DOM.setHasError false (DOM.clearContent n)) ns
  = map (fun n => DOM.setHasError false (DOM.clearContent n)) ns'.

End FurtherNotions.

(* ================================================================== *)
(** ** Further forms *)

Module MoreForms.

(** [<input type="text" id="zip" name="zip" pattern="(">] holding "abc":
    not required, and its pattern is one the host refuses to compile. *)
Definition patternField : DOM.Control :=
  DOM.mkControl (DOM.Input (u16 "text")) (Some (u16 "zip")) (u16 "zip") (u16 "abc")
                false false None None (Some (u16 "(")) [] None None None false.

Definition optionalPattern : Validation.State :=
  Validation.attach [ patternField ] [].

(** [<input type="text" maxlength="abc">], empty. *)
Definition maxlengthField : DOM.Control :=
  DOM.mkControl (DOM.Input (u16 "text")) None [] [] false false
                None (Some (u16 "abc")) None [] None None None false.

(** [<input type="radio" value="on" required checked>], without a name
    attribute. *)
Definition namelessRadio : DOM.Control :=
  DOM.mkControl (DOM.Input (u16 "radio")) None [] (u16 "on") true true
                None None None [] None None None false.


(** A text field that is not required, with a double quote in the
    middle of its id (p, double quote, q), and the elements for its label
    and its message. *)
Definition quotedId : jsstring := u16 "p" ++ DOM.QUOTE ++ u16 "q".

Definition quotedIdField : DOM.Control :=
  DOM.mkControl (DOM.Input (u16 "text")) (Some (u16 "pq")) quotedId (u16 "abc")
                false false None None None [] None None None false.

Definition quotedIdForm : Validation.State :=
  Validation.attach
    [ quotedIdField ]
    [ DOM.mkNode [] (Some quotedId) false [];
      DOM.mkNode (quotedId ++ u16 "-error") None false [] ].

(** The radio group of [Examples.radioGroup] once its first member, the
    required one, has been evaluated: the member carries the error marker
    and the error element of the group its message. *)
Definition radioGroupShown : Validation.State :=
  fst (@Validation.getHandler Examples.exampleHost 0 Examples.radioGroup).

End MoreForms.

(* ================================================================== *)
(** ** Facts about strings *)

(** Closed goals: conjunctions of equations settled by evaluation. *)
Ltac compute_conj :=
  repeat (apply conj; [vm_compute; reflexivity|]); vm_compute; reflexivity.

Section StringFacts.

Lemma jseq_refl (a : jsstring) : jseq a a = true.
Proof.
  induction a as [|x a IH]; simpl; [reflexivity|].
  now rewrite N.eqb_refl.
Qed.

Lemma jseq_eq (a b : jsstring) : jseq a b = true <-> a = b.
Proof.
  split.
  - revert b; induction a as [|x a IH]; intros [|y b] E; simpl in E;
      try discriminate; [reflexivity|].
    apply andb_true_iff in E as [E1 E2].
    apply N.eqb_eq in E1. f_equal; auto.
  - intros ->. apply jseq_refl.
Qed.

Lemma jseq_neq (a b : jsstring) : jseq a b = false <-> a <> b.
Proof.
  split.
  - intros E ->. rewrite jseq_refl in E. discriminate.
  - intros NE. destruct (jseq a b) eqn:E; [|reflexivity].
    apply jseq_eq in E. contradiction.
Qed.

Lemma lineTerminator_isWhiteSpace (c : N) :
  isLineTerminator c = true -> isWhiteSpace c = true.
Proof.
  unfold isLineTerminator, isWhiteSpace. intros E.
  repeat (apply orb_true_iff in E as [E|E]); apply N.eqb_eq in E; subst; reflexivity.
Qed.

End StringFacts.

(* ================================================================== *)
(** ** Facts about [submitContact] *)

Section SubmitContactFacts.

Import SubmitContact.

Lemma collect_setChecked (v : Values) (b : bool) (c : DOM.Control) :
  collect v (DOM.setChecked b c) = collect v c.
Proof. reflexivity. Qed.

Lemma getValues_from (inputs : list DOM.Control) (b : bool) (v : Values) :
  fold_left collect (map (DOM.setChecked b) inputs) v = fold_left collect inputs v.
Proof.
  revert v; induction inputs as [|c inputs IH]; intros v; simpl; [reflexivity|].
  rewrite collect_setChecked. apply IH.
Qed.

Lemma getValues_setChecked (inputs : list DOM.Control) (b : bool) :
  getValues (map (DOM.setChecked b) inputs) = getValues inputs.
Proof. apply getValues_from. Qed.

Lemma getValues_snoc (inputs : list DOM.Control) (c : DOM.Control) :
  getValues (inputs ++ [c]) = collect (getValues inputs) c.
Proof. unfold getValues. now rewrite fold_left_app. Qed.

Lemma collect_type_category (v : Values) (c : DOM.Control) :
  isCategoryRadio c = true -> type (collect v c) = categoryLabel (DOM.value c).
Proof.
  unfold isCategoryRadio, isCategoryValue, collect, categoryLabel.
  intros E. apply andb_true_iff in E as [-> E].
  destruct (jseq (DOM.value c) (u16 "radio01")); [reflexivity|].
  destruct (jseq (DOM.value c) (u16 "radio02")); [reflexivity|].
  destruct (jseq (DOM.value c) (u16 "radio03")); [reflexivity|].
  destruct (jseq (DOM.value c) (u16 "radio04")); [reflexivity|].
  discriminate.
Qed.

Lemma collect_type_other (v : Values) (c : DOM.Control) :
  isCategoryRadio c = false -> type (collect v c) = type v.
Proof.
  unfold isCategoryRadio, isCategoryValue, collect.
  destruct (jseq (DOM.type c) (u16 "radio")); simpl.
  - intros E.
    apply orb_false_iff in E as [E E4]. apply orb_false_iff in E as [E E3].
    apply orb_false_iff in E as [E1 E2]. now rewrite E1, E2, E3, E4.
  - intros _.
    repeat match goal with |- context [if ?b then _ else _] => destruct b end;
      reflexivity.
Qed.

Lemma collect_radio_frame (v : Values) (c : DOM.Control) :
  jseq (DOM.type c) (u16 "radio") = true ->
  name (collect v c) = name v /\ companyName (collect v c) = companyName v
  /\ email (collect v c) = email v /\ detail (collect v c) = detail v
  /\ adv (collect v c) = adv v.
Proof.
  unfold collect. intros ->.
  repeat match goal with |- context [if ?b then _ else _] => destruct b end;
    repeat split; reflexivity.
Qed.

Lemma getValues_type (inputs : list DOM.Control) :
  type (getValues inputs) =
  match find isCategoryRadio (rev inputs) with
  | Some c => categoryLabel (DOM.value c)
  | None => []
  end.
Proof.
  induction inputs as [|c inputs IH] using rev_ind; [reflexivity|].
  rewrite getValues_snoc, rev_app_distr. simpl.
  destruct (isCategoryRadio c) eqn:E.
  - now apply collect_type_category.
  - rewrite collect_type_other by assumption. exact IH.
Qed.

(** C10.  [getValues] never reads [checked]: two forms that differ only in
    which controls are checked yield the same variables and the same
    request; the inquiry-type label is the label of the last control of
    type radio, in enumeration order, whose value is one of
    radio01..radio04 (empty when there is none); and a control of type
    radio leaves [name], [companyName], [email], [detail] and [adv] as they
    are, whatever its name. *)
Theorem getValues_ignores_checked :
  (forall f1 f2 : list DOM.Control,
      map (DOM.setChecked false) f1 = map (DOM.setChecked false) f2 ->
      getValues f1 = getValues f2
      /\ payloadText (getValues f1) = payloadText (getValues f2)
      /\ forall net, fetchValues (getValues f1) net = fetchValues (getValues f2) net)
  /\ (forall f : list DOM.Control,
         type (getValues f) =
         match find isCategoryRadio (rev f) with
         | Some c => categoryLabel (DOM.value c)
         | None => []
         end)
  /\ (forall (v : Values) (c : DOM.Control),
         jseq (DOM.type c) (u16 "radio") = true ->
         name (collect v c) = name v /\ companyName (collect v c) = companyName v
         /\ email (collect v c) = email v /\ detail (collect v c) = detail v
         /\ adv (collect v c) = adv v).
Proof.
  split; [|split].
  - intros f1 f2 E.
    assert (G : getValues f1 = getValues f2).
    { rewrite <- (getValues_setChecked f1 false), <- (getValues_setChecked f2 false).
      now rewrite E. }
    rewrite G. repeat split; reflexivity.
  - apply getValues_type.
  - apply collect_radio_frame.
Qed.

(** The two example forms differ only in the checked members, and are
    sent as the same text. *)
Lemma getValues_ignores_checked_witness :
  getValues Examples.contactForm = getValues Examples.contactForm'.
Proof.
  apply (proj1 getValues_ignores_checked Examples.contactForm Examples.contactForm').
  reflexivity.
Defined.

(** C2 (the code at the failing input).  With "radio01" and "sns" the
    checked members of the two radio groups, the text carries the label of
    "radio04", the last category radio of the form, and no referral
    label. *)
Lemma contactForm_payload :
  map (fun c => (DOM.value c, DOM.checked c))
      (filter DOM.checked Examples.contactForm)
  = [(u16 "radio01", true); (u16 "sns", true)]
  /\ type (getValues Examples.contactForm) = u16 "その他"
  /\ adv (getValues Examples.contactForm) = []
  /\ lines (payloadText (getValues Examples.contactForm)) =
     [ u16 "  お問い合わせがありました。";
       u16 "  PON DESIGNをどちらでお知りになりましたか？：";
       u16 "  お問合せ種別：その他";
       u16 "  お名前：Yamada";
       u16 "  会社名：記入なし";
       u16 "  メールアドレス：yamada@example.com";
       u16 "  【お問合せ内容】";
       u16 "  hello" ].
Proof. intros. compute_conj. Qed.


(** C4.  The request is issued once; the acknowledgment is shown exactly
    when the promise of [fetch] is fulfilled, whatever the status and the
    body of the response; when it is rejected (or never settles) the
    request is the only effect; and the form is left as it was. *)
Theorem acknowledgment_iff_fulfilled (form : list DOM.Control) (net : FetchOutcome) :
  let request := Fetch url (u16 "POST") (stringify (payload (getValues form))) in
  (In (Alert ACKNOWLEDGMENT) (snd (submitContact form net))
   <-> exists status responseBody, net = Fulfilled status responseBody)
  /\ (forall status responseBody,
         net = Fulfilled status responseBody ->
         snd (submitContact form net) = [request; Alert ACKNOWLEDGMENT])
  /\ (net = Rejected -> snd (submitContact form net) = [request])
  /\ (net = Pending -> snd (submitContact form net) = [request])
  /\ fst (submitContact form net) = form.
Proof.
  unfold submitContact, fetchValues; simpl.
  repeat split.
  - intros [E|E]; [discriminate|].
    destruct net as [st b| |]; simpl in E; try contradiction.
    now exists st, b.
  - intros (st & b & ->). right. left. reflexivity.
  - intros st b ->. reflexivity.
  - intros ->. reflexivity.
  - intros ->. reflexivity.
Qed.

End SubmitContactFacts.

(* ================================================================== *)
(** ** Facts about [replace(/^\n|\s+$|^ {4}/gm, '')] *)

Section ReplaceFacts.

Lemma nonspace_not_terminator (c : N) :
  isWhiteSpace c = false -> isLineTerminator c = false.
Proof.
  intros E. destruct (isLineTerminator c) eqn:L; [|reflexivity].
  apply lineTerminator_isWhiteSpace in L. congruence.
Qed.

Lemma trailLen_nonspace (c : N) (s : jsstring) :
  isWhiteSpace c = false -> trailLen (c :: s) = 0.
Proof. intros E. simpl. now rewrite E. Qed.

Lemma trailLen_space_zero (c : N) (s : jsstring) :
  isWhiteSpace c = true -> trailLen (c :: s) = 0 ->
  trailLen s = 0 /\ atLineEnd s = false.
Proof.
  intros E. simpl. rewrite E.
  destruct (trailLen s); [|discriminate].
  destruct (atLineEnd s); [discriminate|]. auto.
Qed.

Lemma fourSpaces_inv (s : jsstring) :
  fourSpaces s = true -> exists t, s = 32%N :: 32%N :: 32%N :: 32%N :: t.
Proof.
  destruct s as [|a [|b [|c [|d t]]]]; simpl; try discriminate.
  intros E. apply andb_true_iff in E as [E Ed]. apply andb_true_iff in E as [E Ec].
  apply andb_true_iff in E as [Ea Eb].
  apply N.eqb_eq in Ea, Eb, Ec, Ed. subst. now exists t.
Qed.

Lemma matchLen_nonspace (p : option N) (c : N) (s : jsstring) :
  isWhiteSpace c = false -> matchLen p (c :: s) = 0.
Proof.
  intros E. unfold matchLen.
  assert ((c =? 10)%N = false) as ->.
  { destruct (N.eqb_spec c 10); [subst; discriminate|reflexivity]. }
  rewrite andb_false_r, trailLen_nonspace by assumption.
  destruct (fourSpaces (c :: s)) eqn:F; [|now rewrite andb_false_r].
  apply fourSpaces_inv in F as [t F]. injection F as -> _. discriminate.
Qed.

Lemma scan_nonspace (p : option N) (c : N) (s : jsstring) :
  isWhiteSpace c = false -> scan p 0 (c :: s) = c :: scan (Some c) 0 s.
Proof.
  intros E. change (scan p 0 (c :: s))
    with (match matchLen p (c :: s) with
          | O => c :: scan (Some c) 0 s
          | S k => scan (Some c) k s
          end).
  now rewrite matchLen_nonspace.
Qed.

Lemma scan_unfold (p : option N) (c : N) (s : jsstring) :
  scan p 0 (c :: s) =
  match matchLen p (c :: s) with
  | O => c :: scan (Some c) 0 s
  | S k => scan (Some c) k s
  end.
Proof. reflexivity. Qed.

(** What follows an emitted whitespace is not at a line end. *)
Lemma scan_after_space (c : N) (s : jsstring) :
  isWhiteSpace c = true -> trailLen (c :: s) = 0 ->
  atLineEnd (scan (Some c) 0 s) = false.
Proof.
  intros Ec T. destruct (trailLen_space_zero _ _ Ec T) as [T' L].
  destruct s as [|d s]; [discriminate|]. simpl in L.
  rewrite scan_unfold. unfold matchLen.
  assert ((d =? 10)%N = false) as ->.
  { destruct (N.eqb_spec d 10); [subst; discriminate|reflexivity]. }
  rewrite andb_false_r, T'.
  destruct (atLineStart (Some c) && fourSpaces (d :: s)) eqn:F; [|exact L].
  apply andb_true_iff in F as [_ F]. apply fourSpaces_inv in F as [t F].
  injection F as -> ->. simpl scan at 1.
  assert (S1 : isWhiteSpace 32 = true) by reflexivity.
  destruct (trailLen_space_zero _ _ S1 T') as [T1 _].
  destruct (trailLen_space_zero _ _ S1 T1) as [T2 _].
  destruct (trailLen_space_zero _ _ S1 T2) as [T3 _].
  destruct (trailLen_space_zero _ _ S1 T3) as [T4 L4].
  destruct t as [|e t]; [discriminate|]. simpl in L4.
  rewrite scan_unfold. unfold matchLen. rewrite T4. simpl atLineStart.
  simpl. exact L4.
Qed.

Lemma matchLen_zero_trailLen (p : option N) (s : jsstring) :
  matchLen p s = 0 -> trailLen s = 0.
Proof.
  destruct s as [|c s]; [reflexivity|]. unfold matchLen.
  destruct (atLineStart p && (c =? 10)%N); [discriminate|].
  destruct (trailLen (c :: s)); [reflexivity|discriminate].
Qed.

Lemma scan_noTrailingSpace (s : jsstring) :
  forall p k, noTrailingSpace (scan p k s) = true.
Proof.
  induction s as [|c s IH]; intros p k; [reflexivity|].
  destruct k as [|k]; [|apply IH].
  rewrite scan_unfold. destruct (matchLen p (c :: s)) eqn:M; [|apply IH].
  simpl. rewrite IH, andb_true_r.
  destruct (isWhiteSpace c) eqn:Ec; [|reflexivity]. simpl.
  rewrite scan_after_space;
    [reflexivity|exact Ec|exact (matchLen_zero_trailLen _ _ M)].
Qed.

Lemma lines_first_empty (t : jsstring) (ls : list jsstring) :
  lines t = [] :: ls -> atLineEnd t = true.
Proof.
  destruct t as [|c t]; [reflexivity|]. simpl.
  destruct (N.eqb_spec c 10) as [->|_]; [reflexivity|].
  destruct (lines t); discriminate.
Qed.

Lemma lines_nonempty (t : jsstring) : lines t <> [].
Proof.
  destruct t as [|c t]; simpl; [discriminate|].
  destruct (c =? 10)%N; [discriminate|]. destruct (lines t); discriminate.
Qed.

Lemma noTrailingSpace_lines (t : jsstring) :
  noTrailingSpace t = true ->
  Forall (fun l => endsWithSpace l = false) (lines t).
Proof.
  induction t as [|c t IH]; simpl; intros E.
  - constructor; [reflexivity|constructor].
  - apply andb_true_iff in E as [E1 E2]. specialize (IH E2).
    destruct (c =? 10)%N; [constructor; [reflexivity|exact IH]|].
    destruct (lines t) as [|l ls] eqn:L; [now apply lines_nonempty in L|].
    inversion IH as [|? ? Hl Hls]; subst. constructor; [|exact Hls].
    destruct l as [|d l]; [|exact Hl]. simpl.
    apply lines_first_empty in L. rewrite L in E1. simpl in E1.
    rewrite orb_false_r in E1. now apply negb_true_iff in E1.
Qed.

(** *** Cutting the scan after a code unit that is not whitespace *)

Lemma trailLen_le (s : jsstring) : trailLen s <= leadingSpaces s.
Proof.
  induction s as [|c s IH]; simpl; [lia|].
  destruct (isWhiteSpace c); [|lia].
  destruct (trailLen s); [destruct (atLineEnd s); lia|lia].
Qed.

Lemma matchLen_le (p : option N) (s : jsstring) : matchLen p s <= leadingSpaces s.
Proof.
  destruct s as [|c s]; [simpl; lia|]. unfold matchLen.
  destruct (atLineStart p && (c =? 10)%N) eqn:A.
  - apply andb_true_iff in A as [_ A]. apply N.eqb_eq in A. subst. simpl. lia.
  - pose proof (trailLen_le (c :: s)) as T.
    destruct (trailLen (c :: s)); [|exact T].
    destruct (atLineStart p && fourSpaces (c :: s)) eqn:F; [|lia].
    apply andb_true_iff in F as [_ F]. apply fourSpaces_inv in F as [t F].
    rewrite F. simpl. lia.
Qed.

Lemma atLineEnd_cut (a : jsstring) (x : N) (b b' : jsstring) :
  atLineEnd (a ++ x :: b) = atLineEnd (a ++ x :: b').
Proof. destruct a; reflexivity. Qed.

Lemma trailLen_cut (a : jsstring) (x : N) (b b' : jsstring) :
  isWhiteSpace x = false -> trailLen (a ++ x :: b) = trailLen (a ++ x :: b').
Proof.
  intros E. induction a as [|c a IH]; simpl.
  - now rewrite E.
  - now rewrite IH, (atLineEnd_cut a x b b').
Qed.

Lemma fourSpaces_cut (a : jsstring) (x : N) (b b' : jsstring) :
  isWhiteSpace x = false -> fourSpaces (a ++ x :: b) = fourSpaces (a ++ x :: b').
Proof.
  intros E.
  assert (X : (x =? 32)%N = false).
  { destruct (N.eqb_spec x 32); [subst; discriminate|reflexivity]. }
  destruct a as [|a0 [|a1 [|a2 [|a3 a]]]]; simpl; [| | | |reflexivity];
    rewrite ?X, ?andb_false_r;
    destruct b as [|? [|? [|? ?]]]; destruct b' as [|? [|? [|? ?]]];
      rewrite ?andb_false_l; reflexivity.
Qed.

Lemma matchLen_cut (p : option N) (a : jsstring) (x : N) (b b' : jsstring) :
  isWhiteSpace x = false -> matchLen p (a ++ x :: b) = matchLen p (a ++ x :: b').
Proof.
  intros E. unfold matchLen.
  rewrite (trailLen_cut a x b b' E), (fourSpaces_cut a x b b' E).
  destruct a; reflexivity.
Qed.

Lemma scan_split (x : N) (b : jsstring) :
  isWhiteSpace x = false ->
  forall (a : jsstring) (p : option N) (k : nat),
    k <= leadingSpaces (a ++ [x]) ->
    scan p k (a ++ x :: b) = scan p k (a ++ [x]) ++ scan (Some x) 0 b.
Proof.
  intros E. induction a as [|c a IH]; intros p k K.
  - simpl in K. rewrite E in K. assert (k = 0) as -> by lia.
    cbn [app]. rewrite (scan_nonspace p x b E), (scan_nonspace p x [] E). reflexivity.
  - cbn [app]. destruct k as [|k].
    + rewrite !scan_unfold.
      change (c :: a ++ x :: b) with ((c :: a) ++ x :: b).
      change (c :: a ++ [x]) with ((c :: a) ++ [x]).
      rewrite (matchLen_cut p (c :: a) x b [] E).
      pose proof (matchLen_le p ((c :: a) ++ [x])) as M.
      destruct (matchLen p ((c :: a) ++ [x])) as [|m].
      * rewrite IH by lia. reflexivity.
      * apply IH. simpl in M. destruct (isWhiteSpace c); lia.
    + simpl scan. apply IH. simpl in K. destruct (isWhiteSpace c); lia.
Qed.

Lemma scan_ends (x : N) :
  isWhiteSpace x = false ->
  forall (a : jsstring) (p : option N) (k : nat),
    k <= leadingSpaces (a ++ [x]) ->
    exists pre, scan p k (a ++ [x]) = pre ++ [x].
Proof.
  intros E. induction a as [|c a IH]; intros p k K.
  - simpl in K. rewrite E in K. assert (k = 0) as -> by lia.
    exists []. cbn [app]. rewrite (scan_nonspace p x [] E). reflexivity.
  - cbn [app]. destruct k as [|k].
    + rewrite scan_unfold.
      pose proof (matchLen_le p (c :: a ++ [x])) as M.
      destruct (matchLen p (c :: a ++ [x])) as [|m].
      * destruct (IH (Some c) 0) as [pre P]; [lia|].
        exists (c :: pre). now rewrite P.
      * apply IH. simpl in M. destruct (isWhiteSpace c); lia.
    + simpl scan. apply IH. simpl in K. destruct (isWhiteSpace c); lia.
Qed.

Lemma scan_skip (R : jsstring) :
  forall (a : jsstring) (p : option N),
    scan p (List.length a) (a ++ R) = scan (lastOr a p) 0 R.
Proof.
  induction a as [|c a IH]; intros p; [reflexivity|].
  simpl. apply IH.
Qed.

(** *** A value, then the line break and the indentation of the template *)

Lemma trailLen_body (b : jsstring) (x : N) (T : jsstring) :
  noLineTerminator b = true -> isWhiteSpace x = false ->
  trailLen (b ++ x :: T) = 0.
Proof.
  intros B E. induction b as [|c b IH]; simpl.
  - now rewrite E.
  - simpl in B. apply andb_true_iff in B as [_ B]. rewrite (IH B).
    destruct (isWhiteSpace c); [|reflexivity].
    destruct b as [|d b]; simpl.
    + now rewrite (nonspace_not_terminator _ E).
    + simpl in B. apply andb_true_iff in B as [B _].
      apply negb_true_iff in B. now rewrite B.
Qed.

Lemma trailLen_cons_body (c : N) (b : jsstring) (x : N) (T : jsstring) :
  noLineTerminator b = true -> isWhiteSpace x = false ->
  trailLen (c :: b ++ x :: T) = 0.
Proof.
  intros B E. simpl. rewrite (trailLen_body b x T B E).
  destruct (isWhiteSpace c); [|reflexivity].
  destruct b as [|d b]; simpl.
  - now rewrite (nonspace_not_terminator _ E).
  - simpl in B. apply andb_true_iff in B as [B _].
    apply negb_true_iff in B. now rewrite B.
Qed.

(** A text without LineTerminator that ends in [x], no whitespace, is
    copied as it is. *)
Lemma scan_body (x : N) (T : jsstring) :
  isWhiteSpace x = false ->
  forall (b : jsstring) (p : N),
    isLineTerminator p = false -> noLineTerminator b = true ->
    scan (Some p) 0 (b ++ x :: T) = b ++ x :: scan (Some x) 0 T.
Proof.
  intros E. induction b as [|c b IH]; intros p P B.
  - cbn [app]. now apply scan_nonspace.
  - cbn [app]. rewrite scan_unfold. unfold matchLen.
    simpl atLineStart. rewrite P. simpl andb.
    simpl in B. apply andb_true_iff in B as [Bc B].
    rewrite (trailLen_cons_body c b x T B E).
    rewrite IH; [reflexivity| |exact B]. now apply negb_true_iff in Bc.
Qed.

Lemma trailLen_spaces (w : jsstring) (R : jsstring) :
  forallb isWhiteSpace w = true -> w <> [] ->
  atLineEnd R = true -> trailLen R = 0 ->
  trailLen (w ++ R) = List.length w.
Proof.
  intros W NE L T. induction w as [|c w IH]; [contradiction|].
  simpl in W. apply andb_true_iff in W as [Wc W]. simpl. rewrite Wc.
  destruct w as [|d w].
  - simpl. now rewrite T, L.
  - rewrite IH; [reflexivity|exact W|discriminate].
Qed.

Lemma lastOr_noLineTerminator (w : jsstring) (p : N) :
  isLineTerminator p = false -> noLineTerminator w = true ->
  exists q, lastOr w (Some p) = Some q /\ isLineTerminator q = false.
Proof.
  revert p. induction w as [|c w IH]; intros p P W.
  - now exists p.
  - simpl in W. apply andb_true_iff in W as [Wc W]. simpl.
    apply IH; [now apply negb_true_iff in Wc|exact W].
Qed.

(** The line break and the six spaces before a label: the line break
    stays, four of the spaces go. *)
Lemma scan_newline_indent (q y : N) (T : jsstring) :
  isLineTerminator q = false -> isWhiteSpace y = false ->
  scan (Some q) 0 (10%N :: sixSpaces ++ y :: T)
  = 10%N :: 32%N :: 32%N :: y :: scan (Some y) 0 T.
Proof.
  intros Q Y.
  assert (T0 : forall c b, noLineTerminator b = true -> trailLen (c :: b ++ y :: T) = 0).
  { intros c b B. now apply trailLen_cons_body. }
  assert (H7 : trailLen (10 :: 32 :: 32 :: 32 :: 32 :: 32 :: 32 :: y :: T)%N = 0)
    by exact (T0 10%N sixSpaces eq_refl).
  assert (H6 : trailLen (32 :: 32 :: 32 :: 32 :: 32 :: 32 :: y :: T)%N = 0)
    by exact (T0 32%N [32; 32; 32; 32; 32]%N eq_refl).
  assert (H2 : trailLen (32 :: 32 :: y :: T)%N = 0)
    by exact (T0 32%N [32]%N eq_refl).
  assert (H1 : trailLen (32 :: y :: T)%N = 0)
    by exact (T0 32%N [] eq_refl).
  unfold sixSpaces. cbn [app].
  rewrite scan_unfold. unfold matchLen. rewrite H7.
  cbn [atLineStart]. rewrite Q. cbn [andb]. f_equal.
  rewrite scan_unfold. unfold matchLen. rewrite H6.
  change (atLineStart (Some 10%N)) with true.
  change ((32 =? 10)%N) with false.
  change (fourSpaces (32 :: 32 :: 32 :: 32 :: 32 :: 32 :: y :: T)%N) with true.
  cbn [andb].
  change (scan (Some 32%N) 3 (32 :: 32 :: 32 :: 32 :: 32 :: y :: T)%N)
    with (scan (Some 32%N) 0 (32 :: 32 :: y :: T)%N).
  rewrite scan_unfold. unfold matchLen. rewrite H2.
  change (atLineStart (Some 32%N)) with false. cbn [andb]. f_equal.
  rewrite scan_unfold. unfold matchLen. rewrite H1.
  change (atLineStart (Some 32%N)) with false. cbn [andb]. f_equal.
  now apply scan_nonspace.
Qed.

(** Whitespace without LineTerminator before that line break is dropped. *)
Lemma scan_trailing (y : N) (T : jsstring) :
  isWhiteSpace y = false ->
  forall (w : jsstring) (p : N),
    isLineTerminator p = false ->
    forallb isWhiteSpace w = true -> noLineTerminator w = true ->
    scan (Some p) 0 (w ++ 10%N :: sixSpaces ++ y :: T)
    = 10%N :: 32%N :: 32%N :: y :: scan (Some y) 0 T.
Proof.
  intros Y w p P W L. destruct w as [|c w].
  - now apply scan_newline_indent.
  - set (R := (10%N :: sixSpaces ++ y :: T)).
    assert (TR : trailLen R = 0).
    { unfold R. now apply trailLen_cons_body. }
    cbn [app]. rewrite scan_unfold. unfold matchLen.
    cbn [atLineStart]. rewrite P. cbn [andb].
    change (c :: w ++ R) with ((c :: w) ++ R).
    rewrite (trailLen_spaces (c :: w) R W ltac:(discriminate) eq_refl TR).
    cbn [List.length]. rewrite scan_skip.
    simpl in L. apply andb_true_iff in L as [Lc L].
    apply negb_true_iff in Lc.
    destruct (lastOr_noLineTerminator w c Lc L) as (q & Eq & Q). rewrite Eq.
    now apply scan_newline_indent.
Qed.

Lemma trimStart_decomp (r : jsstring) :
  exists w, r = w ++ trimStart r /\ forallb isWhiteSpace w = true
            /\ (trimStart r = []
                \/ exists x t, trimStart r = x :: t /\ isWhiteSpace x = false).
Proof.
  induction r as [|c r (w & E & W & D)]; simpl.
  - exists []. auto.
  - destruct (isWhiteSpace c) eqn:C.
    + exists (c :: w). simpl. rewrite C, W. split; [now f_equal|auto].
    + exists []. repeat split. right. now exists c, r.
Qed.

Lemma trimEnd_decomp (s : jsstring) :
  exists w, s = trimEnd s ++ w /\ forallb isWhiteSpace w = true
            /\ (trimEnd s = []
                \/ exists b x, trimEnd s = b ++ [x] /\ isWhiteSpace x = false).
Proof.
  unfold trimEnd. destruct (trimStart_decomp (rev s)) as (w & E & W & D).
  exists (rev w). repeat split.
  - rewrite <- rev_app_distr, <- E. now rewrite rev_involutive.
  - apply forallb_forall. intros c I. apply in_rev in I.
    now apply (proj1 (forallb_forall _ _) W).
  - destruct D as [->|(x & t & -> & X)]; [now left|].
    right. exists (rev t), x. auto.
Qed.

Lemma noLineTerminator_app (a b : jsstring) :
  noLineTerminator (a ++ b) = noLineTerminator a && noLineTerminator b.
Proof. apply forallb_app. Qed.

(** A value without LineTerminator, between a label and the next line of
    the template: its trailing whitespace goes, the rest is copied. *)
Lemma scan_value (y : N) (T : jsstring) (s : jsstring) (p : N) :
  isWhiteSpace y = false -> isLineTerminator p = false ->
  noLineTerminator s = true ->
  scan (Some p) 0 (s ++ 10%N :: sixSpaces ++ y :: T)
  = trimEnd s ++ 10%N :: 32%N :: 32%N :: y :: scan (Some y) 0 T.
Proof.
  intros Y P L. destruct (trimEnd_decomp s) as (w & E & W & D).
  rewrite E in L. rewrite noLineTerminator_app in L.
  apply andb_true_iff in L as [Lb Lw].
  rewrite E at 1. rewrite <- app_assoc.
  destruct D as [D|(b & x & D & X)].
  - rewrite D. cbn [app]. now apply scan_trailing.
  - rewrite D in *. rewrite <- app_assoc. cbn [app].
    rewrite noLineTerminator_app in Lb. apply andb_true_iff in Lb as [Lb _].
    rewrite scan_body by assumption. rewrite <- app_assoc. cbn [app].
    do 2 f_equal. apply scan_trailing; auto using nonspace_not_terminator.
Qed.

End ReplaceFacts.

(* ================================================================== *)
(** ** The text of the payload *)

Section PayloadFacts.

Import SubmitContact.

Lemma scan_nonspaces (T : jsstring) :
  forall (l : jsstring) (p : option N),
    forallb (fun c => negb (isWhiteSpace c)) l = true ->
    scan p 0 (l ++ T) = l ++ scan (lastOr l p) 0 T.
Proof.
  induction l as [|c l IH]; intros p L; [reflexivity|].
  cbn [forallb] in L. apply andb_true_iff in L as [Lc L].
  apply negb_true_iff in Lc. cbn [app lastOr].
  rewrite (scan_nonspace p c (l ++ T) Lc). now rewrite IH.
Qed.

(** A literal without whitespace is copied, whatever precedes it. *)
Lemma scan_ends_literal (a : jsstring) (x : N) (l : jsstring) :
  forallb (fun c => negb (isWhiteSpace c)) (x :: l) = true ->
  exists pre, scan None 0 (a ++ x :: l) = pre ++ x :: l.
Proof.
  intros L. cbn [forallb] in L. apply andb_true_iff in L as [Lx L].
  apply negb_true_iff in Lx.
  rewrite (scan_split x l Lx a None 0) by lia.
  destruct (scan_ends x Lx a None 0) as [pre P]; [lia|].
  exists pre. rewrite P, <- app_assoc. cbn [app]. do 2 f_equal.
  rewrite <- (app_nil_r l) at 1. rewrite (scan_nonspaces [] l (Some x) L).
  destruct l; cbn [lastOr]; now rewrite app_nil_r.
Qed.

Lemma template_split (v : Values) :
  template v =
  beforeCompany v ++ orElse (companyName v) (u16 "記入なし") ++
  LF ++ indent ++ u16 "メールアドレス：" ++ afterMailLabel v.
Proof.
  unfold template, beforeCompany, afterMailLabel.
  repeat rewrite <- app_assoc. reflexivity.
Qed.

Lemma beforeCompany_label (v : Values) :
  exists a, beforeCompany v = a ++ u16 "会社名：".
Proof.
  eexists. unfold beforeCompany. repeat rewrite app_assoc. reflexivity.
Qed.

Lemma replaceIndent_beforeCompany (v : Values) (b : jsstring) :
  replaceIndent (beforeCompany v ++ b)
  = replaceIndent (beforeCompany v) ++ scan (Some 65306%N) 0 b.
Proof.
  destruct (beforeCompany_label v) as [a E]. rewrite E. unfold replaceIndent.
  change (u16 "会社名：") with (u16 "会社名" ++ [65306%N]).
  rewrite (app_assoc a), <- (app_assoc (a ++ _)). cbn [app].
  apply scan_split; [reflexivity|lia].
Qed.

Lemma replaceIndent_beforeCompany_ends (v : Values) :
  exists pre, replaceIndent (beforeCompany v) = pre ++ u16 "会社名：".
Proof.
  destruct (beforeCompany_label v) as [a E]. rewrite E. unfold replaceIndent.
  change (u16 "会社名：") with (20250 :: [31038; 21517; 65306])%N.
  now apply scan_ends_literal.
Qed.

(** The company-name line for a value [s] without LineTerminator. *)
Lemma scan_company_value (v : Values) (s : jsstring) :
  noLineTerminator s = true ->
  scan (Some 65306%N) 0 (s ++ LF ++ indent ++ u16 "メールアドレス：" ++ afterMailLabel v)
  = trimEnd s ++ LF ++ u16 "  メールアドレス：" ++ scan (Some 65306%N) 0 (afterMailLabel v).
Proof.
  intros L.
  change (u16 "メールアドレス：")
    with (12513 :: [12540; 12523; 12450; 12489; 12524; 12473; 65306])%N.
  change (u16 "  メールアドレス：")
    with (32 :: 32 :: 12513 :: [12540; 12523; 12450; 12489; 12524; 12473; 65306])%N.
  change indent with sixSpaces. unfold LF. cbn [app].
  rewrite (scan_value 12513%N _ s 65306%N eq_refl eq_refl L).
  reflexivity.
Qed.

Lemma getValues_companyName (inputs : list DOM.Control) :
  companyName (getValues inputs) =
  match find isCompanyField (rev inputs) with
  | Some c => DOM.value c
  | None => []
  end.
Proof.
  induction inputs as [|c inputs IH] using rev_ind; [reflexivity|].
  rewrite getValues_snoc, rev_app_distr. cbn [rev app find].
  unfold isCompanyField at 1. unfold collect.
  destruct (jseq (DOM.type c) (u16 "radio")) eqn:R.
  - cbn [negb andb]. rewrite <- IH.
    repeat match goal with |- context [if ?b then _ else _] => destruct b end;
      reflexivity.
  - cbn [negb andb].
    destruct (jseq (DOM.name c) (u16 "companyName")) eqn:C.
    + apply jseq_eq in C. rewrite C.
      change (jseq (u16 "companyName") (u16 "name")) with false.
      reflexivity.
    + rewrite <- IH.
      repeat match goal with |- context [if ?b then _ else _] => destruct b end;
        reflexivity.
Qed.

(** C5 (the code at the failing input).  Every line of the text sent for
    the example form begins with two spaces: the template is indented by
    six spaces, and the alternative of [replace] for the indentation
    removes four. *)
Lemma payload_lines_begin_with_space :
  forallb beginsWithSpace (lines (payloadText (getValues Examples.contactForm))) = true
  /\ nth 0 (lines (payloadText (getValues Examples.contactForm))) []
     = u16 "  お問い合わせがありました。"
  /\ nth 3 (lines (payloadText (getValues Examples.contactForm))) []
     = u16 "  お名前：Yamada".
Proof. intros. compute_conj. Qed.

(** X17.  No line of the text sent ends with whitespace, whatever the
    values hold: the whitespace before a line end does not survive the
    [replace]. *)
Theorem payloadText_no_trailing_space (v : Values) :
  Forall (fun l => endsWithSpace l = false) (lines (payloadText v)).
Proof. apply noTrailingSpace_lines. apply scan_noTrailingSpace. Qed.

(** C6 (counterexample).  A company name typed as " Acme" is sent with
    its leading space, not trimmed. *)
Lemma company_leading_space_kept :
  companyName (getValues Examples.companyForm) = u16 " Acme"
  /\ trim (companyName (getValues Examples.companyForm)) = u16 "Acme"
  /\ nth 4 (lines (payloadText (getValues Examples.companyForm))) []
     = u16 "  会社名： Acme"
  /\ existsb (jseq (u16 "  会社名：Acme"))
             (lines (payloadText (getValues Examples.companyForm))) = false.
Proof. intros. compute_conj. Qed.

(** C6 (amended).  The company name is the value of the last control
    named "companyName" that is not a radio (empty when there is none).
    The text has the label of the company name, then the placeholder when
    the company name is empty, and otherwise, for a company name without
    line terminator, the company name without its trailing whitespace (its
    leading whitespace stays); then the line of the e-mail address. *)
Theorem company_line (form : list DOM.Control) :
  let v := getValues form in
  let after := scan (Some 65306%N) 0 (afterMailLabel v) in
  companyName v = match find isCompanyField (rev form) with
                  | Some c => DOM.value c
                  | None => []
                  end
  /\ (exists pre, replaceIndent (beforeCompany v) = pre ++ u16 "会社名：")
  /\ (companyName v = [] ->
      payloadText v = replaceIndent (beforeCompany v) ++ u16 "記入なし"
                      ++ LF ++ u16 "  メールアドレス：" ++ after)
  /\ (companyName v <> [] -> noLineTerminator (companyName v) = true ->
      payloadText v = replaceIndent (beforeCompany v) ++ trimEnd (companyName v)
                      ++ LF ++ u16 "  メールアドレス：" ++ after).
Proof.
  intros v after. split; [apply getValues_companyName|].
  split; [apply replaceIndent_beforeCompany_ends|].
  unfold payloadText. rewrite template_split, replaceIndent_beforeCompany.
  split.
  - intros E. rewrite E. cbn [orElse truthy]. apply f_equal.
    exact (scan_company_value v (u16 "記入なし") eq_refl).
  - intros NE L. apply f_equal.
    destruct (companyName v) as [|c s] eqn:E; [contradiction|].
    cbn [orElse truthy]. now apply scan_company_value.
Qed.

(** The company name of the example form has no line terminator: the
    text carries it without trailing whitespace. *)
Lemma company_line_witness :
  payloadText (getValues Examples.companyForm)
  = replaceIndent (beforeCompany (getValues Examples.companyForm))
    ++ trimEnd (companyName (getValues Examples.companyForm))
    ++ LF ++ u16 "  メールアドレス："
    ++ scan (Some 65306%N) 0 (afterMailLabel (getValues Examples.companyForm)).
Proof.
  apply (proj2 (proj2 (proj2 (company_line Examples.companyForm)))).
  - vm_compute. discriminate.
  - vm_compute. reflexivity.
Defined.

End PayloadFacts.

(* ================================================================== *)
(** ** The rules *)

Section RuleFacts.

Import Validation.



Lemma isRadioNamed_spec (v : jsstring) (c : DOM.Control) :
  DOM.isRadioNamed v c = true <-> DOM.type c = u16 "radio" /\ DOM.nameAttr c = Some v.
Proof.
  unfold DOM.isRadioNamed, DOM.type.
  destruct (DOM.element c) as [t| |[|]], (DOM.nameAttr c) as [m|];
    try (split; [discriminate|intros [_ E]; discriminate]);
    try (split; [discriminate|intros [E _]; vm_compute in E; discriminate]).
  rewrite andb_true_iff, !jseq_eq. split.
  - intros [-> ->]. auto.
  - intros [-> [= ->]]. auto.
Qed.


Section RequiredRule.

Context `{Host}.



(** C3 (the code at the failing input).  A radio button without a name
    attribute, marked required and checked: the rule returns the required
    message, whatever the host.  The form is asked for the checked radio
    buttons whose name attribute is the empty string, and this one has no
    name attribute. *)
Lemma nameless_radio_fails_required :
  DOM.type MoreForms.namelessRadio = u16 "radio"
  /\ DOM.nameAttr MoreForms.namelessRadio = None
  /\ DOM.name MoreForms.namelessRadio = []
  /\ DOM.required MoreForms.namelessRadio = true
  /\ DOM.checked MoreForms.namelessRadio = true
  /\ required [MoreForms.namelessRadio] MoreForms.namelessRadio
     = Some REQUIRED_MESSAGE
  /\ REQUIRED_MESSAGE <> [].
Proof.
  repeat (apply conj; [vm_compute; reflexivity|]). discriminate.
Qed.

End RequiredRule.

Lemma getElementById_updateAll (i : jsstring) (sel : DOM.Node -> bool)
      (f : DOM.Node -> DOM.Node) (l : list DOM.Node) :
  (forall n, DOM.nodeId (f n) = DOM.nodeId n) ->
  DOM.getElementById i (DOM.updateAll sel f l)
  = option_map (fun n => if sel n then f n else n) (DOM.getElementById i l).
Proof.
  intros P. unfold DOM.getElementById, DOM.updateAll.
  induction l as [|n l IH]; [reflexivity|]. cbn [map find].
  assert (E : DOM.nodeId (if sel n then f n else n) = DOM.nodeId n).
  { destruct (sel n); [apply P|reflexivity]. }
  rewrite E. destruct (jseq (DOM.nodeId n) i); [reflexivity|exact IH].
Qed.

Lemma getElementById_updateById (i : jsstring) (f : DOM.Node -> DOM.Node)
      (l : list DOM.Node) :
  (forall n, DOM.nodeId (f n) = DOM.nodeId n) ->
  DOM.getElementById i (DOM.updateById i f l)
  = option_map f (DOM.getElementById i l).
Proof.
  intros P. unfold DOM.getElementById.
  induction l as [|n l IH]; [reflexivity|]. cbn [DOM.updateById find].
  destruct (jseq (DOM.nodeId n) i) eqn:E; cbn [find].
  - now rewrite P, E.
  - now rewrite E.
Qed.

Lemma join_alone (m1 m2 m3 p : jsstring) :
  m3 <> [] ->
  (result [m1; m2; m3; p] = m3 <-> m1 = [] /\ m2 = [] /\ p = []).
Proof.
  intros M3. unfold result. split.
  - intros E. apply (f_equal (@List.length N)) in E. revert E.
    destruct m3 as [|x3 m3]; [contradiction|].
    destruct m1 as [|x1 m1], m2 as [|x2 m2], p as [|xp p];
      cbn [filter truthy join]; intros E; auto;
      repeat (rewrite ?length_app in E; cbn [List.length] in E); lia.
  - intros (-> & -> & ->). destruct m3; [contradiction|reflexivity].
Qed.

Context `{Host}.

(** A message that is not empty is what the children of the error element
    are parsed from after the evaluation. *)
Lemma render_after_handle (i : nat) (input : DOM.Control) (s : State)
      (labels msg : jsstring) (e : DOM.Node) :
  pastedValue (DOM.id input) (DOM.forSelector (DOM.id input)) = Some labels ->
  errorMessageOf (controls s) input = inr msg -> msg <> [] ->
  DOM.getElementById (getErrorId input) (nodes s) = Some e ->
  option_map DOM.content
    (DOM.getElementById (getErrorId input) (nodes (fst (handle i input s))))
  = Some [msg].
Proof.
  intros L M NE E. unfold handle. rewrite L, M, E.
  destruct msg as [|x msg]; [contradiction|]. cbn [jseq negb truthy fst nodes].
  rewrite getElementById_updateById by reflexivity.
  rewrite getElementById_updateAll by reflexivity.
  rewrite E. reflexivity.
Qed.

End RuleFacts.

(* ================================================================== *)
(** ** [getHandler] *)

Section HandlerFacts.

Import Validation.

(** *** Updates of lists *)







Lemma mapGet_mapSet (k : nat) (v : bool) (m : list (nat * bool)) :
  mapGet k (mapSet k v m) = Some v.
Proof.
  induction m as [|[k' v'] m IH]; cbn [mapSet mapGet].
  - now rewrite Nat.eqb_refl.
  - destruct (k =? k') eqn:E; cbn [mapGet]; [now rewrite Nat.eqb_refl|now rewrite E].
Qed.

Lemma mapGet_mapSet_other (k j : nat) (v : bool) (m : list (nat * bool)) :
  j <> k -> mapGet j (mapSet k v m) = mapGet j m.
Proof.
  intros NE. induction m as [|[k' v'] m IH]; cbn [mapSet mapGet].
  - now rewrite (proj2 (Nat.eqb_neq j k) NE).
  - destruct (k =? k') eqn:E; cbn [mapGet].
    + apply Nat.eqb_eq in E. subst k'. now rewrite (proj2 (Nat.eqb_neq j k) NE).
    + now rewrite IH.
Qed.

(** *** Controls up to their error marker *)


Lemma sameInputs_updateNth (i : nat) (b : bool) (cs : list DOM.Control) :
  sameInputs (DOM.updateNth i (DOM.setIsError b) cs) cs.
Proof.
  unfold sameInputs. revert i. induction cs as [|c cs IH]; intros [|i];
    cbn [DOM.updateNth map]; try reflexivity.
  now rewrite IH.
Qed.

Lemma sameInputs_updateAll (sel : DOM.Control -> bool) (b : bool)
      (cs : list DOM.Control) :
  sameInputs (DOM.updateAll sel (DOM.setIsError b) cs) cs.
Proof.
  unfold sameInputs, DOM.updateAll. rewrite map_map. apply map_ext.
  intros c. now destruct (sel c).
Qed.

Lemma sameInputs_nth (cs cs' : list DOM.Control) (i : nat) (a : DOM.Control) :
  sameInputs cs cs' -> nth_error cs i = Some a ->
  exists a', nth_error cs' i = Some a' /\ sameControl a a'.
Proof.
  unfold sameInputs. intros E N.
  apply (map_nth_error (DOM.setIsError false)) in N. rewrite E in N.
  rewrite nth_error_map in N.
  destruct (nth_error cs' i) as [a'|]; [|discriminate].
  exists a'. split; [reflexivity|]. cbn [option_map] in N.
  unfold sameControl. congruence.
Qed.

Lemma filter_map_length {A} (g : A -> bool) (e : A -> A) (l : list A) :
  (forall x, g (e x) = g x) ->
  List.length (filter g (map e l)) = List.length (filter g l).
Proof.
  intros G. induction l as [|x l IH]; [reflexivity|]. cbn [map filter].
  rewrite G. destruct (g x); cbn [List.length]; now rewrite IH.
Qed.

Context `{Host}.

Lemma required_sameInputs (cs cs' : list DOM.Control) (c : DOM.Control) :
  sameInputs cs cs' -> required cs c = required cs' c.
Proof.
  unfold sameInputs. intros E. unfold required.
  destruct (pastedValue (DOM.name c) (DOM.radioSelector (DOM.name c) true)) as [v|];
    [|reflexivity].
  set (g := fun r => DOM.isRadioNamed v r && DOM.checked r).
  assert (L : List.length (filter g cs) = List.length (filter g cs')).
  { rewrite <- (filter_map_length g (DOM.setIsError false) cs) by reflexivity.
    rewrite <- (filter_map_length g (DOM.setIsError false) cs') by reflexivity.
    now rewrite E. }
  now rewrite L.
Qed.

Lemma errorMessageOf_sameInputs (cs cs' : list DOM.Control) (c : DOM.Control) :
  sameInputs cs cs' -> errorMessageOf cs c = errorMessageOf cs' c.
Proof.
  intros E. unfold errorMessageOf. now rewrite (required_sameInputs cs cs' c E).
Qed.

Lemma handle_sameControl (i : nat) (a b : DOM.Control) (s : State) :
  sameControl a b -> handle i a s = handle i b s.
Proof.
  unfold sameControl, DOM.setIsError. destruct a, b; cbn. intros E.
  injection E as -> -> -> -> -> -> -> -> -> -> -> -> ->. reflexivity.
Qed.

End HandlerFacts.

Section HandlerCases.

Import Validation.

Context `{Host}.

(** How an evaluation ends: the selector for the labels is refused; a
    rule throws; the message is empty, and the error state is reset; the
    message is not empty (and then the error element is there or not). *)
Lemma handle_cases (i : nat) (input : DOM.Control) (s : State) :
  match pastedValue (DOM.id input) (DOM.forSelector (DOM.id input)) with
  | None => handle i input s = (s, Throw SelectorSyntaxError)
  | Some labels =>
    match errorMessageOf (controls s) input with
    | inl e => handle i input s = (s, Throw e)
    | inr [] =>
      handle i input s
      = match resetInputErrorState i input
                (mkState (controls s) (nodes s) (mapSet i false (isInvalid s))) with
        | (s', None) => (s', Normal Valid)
        | (s', Some e) => (s', Throw e)
        end
    | inr (x :: m) =>
      let controls1 := DOM.updateNth i (DOM.setIsError true) (controls s) in
      let nodes1 := DOM.updateAll (DOM.isLabelFor labels)
                                  (DOM.setHasError true) (nodes s) in
      let isInvalid1 := mapSet i true (isInvalid s) in
      match DOM.getElementById (getErrorId input) (nodes s) with
      | None => handle i input s = (mkState controls1 nodes1 isInvalid1, Throw TypeError)
      | Some _ =>
        handle i input s
        = (mkState controls1
                   (DOM.updateById (getErrorId input)
                      (fun e => DOM.insertAdjacentHTML (x :: m) (DOM.clearContent e))
                      nodes1)
                   isInvalid1,
           Normal InvalidShown)
      end
    end
  end.
Proof.
  unfold handle.
  destruct (pastedValue (DOM.id input) (DOM.forSelector (DOM.id input))); [|reflexivity].
  destruct (errorMessageOf (controls s) input) as [e|[|x m]]; cbn [jseq negb truthy];
    try reflexivity.
  destruct (DOM.getElementById (getErrorId input) (nodes s)); reflexivity.
Qed.

(** [resetInputErrorState] does the same to every state: it throws
    without a change, or it removes the error markers of the same
    controls and elements and empties the same error element. *)
Lemma resetInputErrorState_cases (i : nat) (input : DOM.Control) :
  (forall s, resetInputErrorState i input s = (s, Some SelectorSyntaxError))
  \/ exists (upd : (DOM.Control -> DOM.Control) -> list DOM.Control -> list DOM.Control)
            (labels : jsstring),
      (upd = DOM.updateNth i \/ exists v, upd = DOM.updateAll (DOM.isRadioNamed v))
      /\ forall s,
          resetInputErrorState i input s
          = (mkState
               (upd (DOM.setIsError false) (controls s))
               (let nodes2 :=
                  DOM.updateAll (DOM.isLabelFor labels) (DOM.setHasError false)
                    (DOM.updateById (getErrorId input) DOM.clearContent (nodes s)) in
                if truthyOpt (DOM.errorId input)
                then DOM.updateById (match DOM.errorId input with Some e => e | None => [] end)
                                    (DOM.setHasError false) nodes2
                else nodes2)
               (isInvalid s),
             None).
Proof.
  unfold resetInputErrorState.
  destruct (jseq (DOM.type input) (u16 "radio")).
  - destruct (pastedValue (DOM.name input) (DOM.radioSelector (DOM.name input) false))
      as [v|]; [|now left].
    destruct (pastedValue (DOM.id input) (DOM.forSelector (DOM.id input)))
      as [labels|]; [|now left].
    right. exists (DOM.updateAll (DOM.isRadioNamed v)), labels.
    split; [right; now exists v|reflexivity].
  - destruct (pastedValue (DOM.id input) (DOM.forSelector (DOM.id input)))
      as [labels|]; [|now left].
    right. exists (DOM.updateNth i), labels. split; [now left|reflexivity].
Qed.

Lemma resetInputErrorState_controls (i : nat) (input : DOM.Control) (s : State) :
  sameInputs (controls (fst (resetInputErrorState i input s))) (controls s).
Proof.
  destruct (resetInputErrorState_cases i input) as [T|(upd & labels & U & R)].
  - rewrite T. reflexivity.
  - rewrite R. cbn [fst controls].
    destruct U as [->|[v ->]]; [apply sameInputs_updateNth|apply sameInputs_updateAll].
Qed.

Lemma resetInputErrorState_isInvalid (i : nat) (input : DOM.Control) (s : State) :
  isInvalid (fst (resetInputErrorState i input s)) = isInvalid s.
Proof.
  destruct (resetInputErrorState_cases i input) as [T|(upd & labels & U & R)].
  - now rewrite T.
  - now rewrite R.
Qed.


(** The record does not matter to what [resetInputErrorState] does. *)
Lemma resetInputErrorState_record (i : nat) (input : DOM.Control) (s : State)
      (m : list (nat * bool)) :
  resetInputErrorState i input (mkState (controls s) (nodes s) m)
  = (mkState (controls (fst (resetInputErrorState i input s)))
             (nodes (fst (resetInputErrorState i input s))) m,
     snd (resetInputErrorState i input s)).
Proof.
  destruct (resetInputErrorState_cases i input) as [T|(upd & labels & U & R)].
  - rewrite !T. reflexivity.
  - rewrite !R. reflexivity.
Qed.

Lemma handle_controls (i : nat) (input : DOM.Control) (s : State) :
  sameInputs (controls (fst (handle i input s))) (controls s).
Proof.
  pose proof (handle_cases i input s) as C.
  destruct (pastedValue (DOM.id input) (DOM.forSelector (DOM.id input)));
    [|rewrite C; reflexivity].
  destruct (errorMessageOf (controls s) input) as [e|[|x m]].
  - rewrite C. reflexivity.
  - rewrite C.
    pose proof (resetInputErrorState_controls i input
                  (mkState (controls s) (nodes s) (mapSet i false (isInvalid s)))) as R.
    destruct (resetInputErrorState i input _) as [s' [e|]]; exact R.
  - cbv zeta in C.
    destruct (DOM.getElementById (getErrorId input) (nodes s)); rewrite C;
      apply sameInputs_updateNth.
Qed.



End HandlerCases.

Section MessageFacts.

Import Validation.

Lemma result_nil (ms : list jsstring) :
  result ms = [] <-> filter truthy ms = [].
Proof.
  unfold result. split; [|now intros ->].
  destruct (filter truthy ms) as [|x l] eqn:F; [reflexivity|].
  assert (X : truthy x = true).
  { apply (proj1 (filter_In truthy x ms)). rewrite F. now left. }
  destruct x as [|c x]; [discriminate|].
  destruct l; cbn [join app]; discriminate.
Qed.

Lemma filter_nil {A} (f : A -> bool) (l : list A) :
  filter f l = [] <-> forall x, In x l -> f x = false.
Proof.
  induction l as [|a l IH]; cbn [filter]; [easy|].
  destruct (f a) eqn:E.
  - split; [discriminate|]. intros F. specialize (F a (or_introl eq_refl)). congruence.
  - rewrite IH. split.
    + intros F x [<-|I]; auto.
    + intros F x I. apply F. now right.
Qed.

(** The order of the rules decides neither whether a control is valid nor
    which messages are shown. *)
Lemma result_permutation (ms ms' : list jsstring) :
  Permutation ms ms' ->
  (result ms = [] <-> result ms' = [])
  /\ forall m, In m (filter truthy ms) <-> In m (filter truthy ms').
Proof.
  intros P. split.
  - rewrite !result_nil, !filter_nil. split; intros F x I; apply F.
    + apply (Permutation_in x (Permutation_sym P) I).
    + apply (Permutation_in x P I).
  - intros m. rewrite !filter_In. split; intros [I T]; split; auto.
    + apply (Permutation_in m P I).
    + apply (Permutation_in m (Permutation_sym P) I).
Qed.

(** The message [result] makes is the concatenation of the claim. *)
Lemma result_concatenation (ms : list jsstring) : result ms = concatenation ms.
Proof.
  induction ms as [|m ms IH]; [reflexivity|].
  cbn [concatenation]. rewrite <- IH. unfold result at 1. cbn [filter].
  destruct (truthy m) eqn:T; [|reflexivity].
  destruct (filter truthy ms) as [|x l] eqn:F.
  - assert (R : result ms = []) by (apply result_nil; exact F).
    rewrite R. reflexivity.
  - assert (R : result ms <> []).
    { intros R. apply result_nil in R. congruence. }
    unfold result in R |- *. rewrite F in R |- *.
    destruct (join BR (x :: l)) as [|c t] eqn:J; [contradiction|].
    cbn [truthy]. cbn [join]. cbn [join] in J. rewrite J. reflexivity.
Qed.

Lemma concatenation_alone (m1 m2 m3 p : jsstring) :
  m3 <> [] ->
  (concatenation [m1; m2; m3; p] = m3 <-> m1 = [] /\ m2 = [] /\ p = []).
Proof. rewrite <- result_concatenation. apply join_alone. Qed.

Context `{Host}.

(** C7 (amended).  The message of a control whose rules do not throw is the
    concatenation of the non-empty messages of minLength, maxLength,
    required and pattern, in this order, joined by a line break; when it
    is not empty and the evaluation completes, the evaluation ends with
    the message shown: the children of the error element are what the
    HTML parser makes of the message.  A control that fails required is
    shown the messages of the other rules it fails as well: the required
    message stands alone exactly when the three other rules return the
    empty message. *)
Theorem error_message_concatenation (i : nat) (input : DOM.Control) (s : State)
        (r p : jsstring) :
  nth_error (controls s) i = Some input ->
  required (controls s) input = Some r -> pattern input = Some p ->
  errorMessageOf (controls s) input
  = inr (concatenation [minLength input; maxLength input; r; p])
  /\ (concatenation [minLength input; maxLength input; r; p] <> [] ->
      (exists b, snd (getHandler i s) = Normal b) ->
      snd (getHandler i s) = Normal InvalidShown
      /\ option_map DOM.content
           (DOM.getElementById (getErrorId input) (nodes (fst (getHandler i s))))
         = Some [concatenation [minLength input; maxLength input; r; p]])
  /\ (r <> [] ->
      (concatenation [minLength input; maxLength input; r; p] = r
       <-> minLength input = [] /\ maxLength input = [] /\ p = [])).
Proof.
  intros N R P.
  assert (M : errorMessageOf (controls s) input
              = inr (concatenation [minLength input; maxLength input; r; p])).
  { unfold errorMessageOf. rewrite R, P. now rewrite result_concatenation. }
  split; [exact M|]. split.
  - intros NE. unfold getHandler. rewrite N. intros [b B].
    pose proof (handle_cases i input s) as C.
    destruct (pastedValue (DOM.id input) (DOM.forSelector (DOM.id input)))
      as [labels|] eqn:L; [|rewrite C in B; discriminate].
    rewrite M in C.
    destruct (DOM.getElementById (getErrorId input) (nodes s)) as [e|] eqn:E.
    + split.
      * destruct (concatenation _) as [|x m]; [contradiction|]. now rewrite C.
      * now apply (render_after_handle i input s labels _ e).
    + destruct (concatenation _) as [|x m]; [contradiction|].
      rewrite C in B. discriminate.
  - intros NE. now apply concatenation_alone.
Qed.


End MessageFacts.

Section MessageExamples.

Import Validation Examples.

(** C7 (counterexample).  An empty required field that declares a minimum
    length fails required and minLength, and both messages are shown:
    failing required suppresses nothing. *)
Lemma required_and_minlength_messages :
  @required exampleHost (controls shortField) (nth 0 (controls shortField) blank)
  = Some REQUIRED_MESSAGE
  /\ @errorMessageOf exampleHost (controls shortField)
                     (nth 0 (controls shortField) blank)
     = inr (u16 "3文字以上入力してください。<br>このフィールドは入力必須です。")
  /\ snd (@getHandler exampleHost 0 shortField) = Normal InvalidShown
  /\ option_map DOM.content
       (DOM.getElementById (u16 "code-error")
                           (nodes (fst (@getHandler exampleHost 0 shortField))))
     = Some [u16 "3文字以上入力してください。<br>このフィールドは入力必須です。"].
Proof. intros. compute_conj. Qed.

(** C9 (the code at the failing input).  In a radio group without a
    checked member, required fails for the first radio button, which is
    marked required: it is recorded as invalid and the message is shown.
    The message of the second radio button, which is not marked required,
    is empty: its evaluation ends in the valid branch and records it as
    valid, not as invalid, and it takes the error marker from the first
    button and the message from the error element of the group. *)
Lemma unrequired_radio_is_valid :
  let first := nth 0 (controls radioGroup) blank in
  let second := nth 1 (controls radioGroup) blank in
  let s1 := fst (@getHandler exampleHost 0 radioGroup) in
  let s2 := fst (@getHandler exampleHost 1 s1) in
  (DOM.type second = u16 "radio" /\ DOM.nameAttr second = DOM.nameAttr first)
  /\ (DOM.required first = true /\ DOM.required second = false)
  /\ map DOM.checked (controls radioGroup) = [false; false]
  /\ @errorMessageOf exampleHost (controls radioGroup) first = inr REQUIRED_MESSAGE
  /\ mapGet 0 (isInvalid s1) = Some true
  /\ map DOM.isError (controls s1) = [true; false]
  /\ option_map DOM.content (DOM.getElementById (u16 "plan-error") (nodes s1))
     = Some [REQUIRED_MESSAGE]
  /\ @errorMessageOf exampleHost (controls s1) second = inr []
  /\ snd (@getHandler exampleHost 1 s1) = Normal Valid
  /\ mapGet 1 (isInvalid s2) = Some false
  /\ map DOM.isError (controls s2) = [false; false]
  /\ option_map DOM.content (DOM.getElementById (u16 "plan-error") (nodes s2))
     = Some [].
Proof.
  intros. repeat (apply conj; [vm_compute; repeat split; reflexivity|]).
  vm_compute. reflexivity.
Qed.

End MessageExamples.

(* ================================================================== *)
(** ** The click on the submit button *)

Section ClickFacts.

Import Validation.

(** *** [this.isInvalid] *)

Lemma keys_mapSet (k : nat) (v : bool) (m : list (nat * bool)) :
  keys (mapSet k v m)
  = if existsb (Nat.eqb k) (keys m) then keys m else keys m ++ [k].
Proof.
  unfold keys. induction m as [|[k' v'] m IH]; [reflexivity|].
  cbn [mapSet map fst existsb].
  destruct (k =? k') eqn:E; cbn [orb map fst].
  - apply Nat.eqb_eq in E. now subst.
  - rewrite IH. now destruct (existsb (Nat.eqb k) (map fst m)).
Qed.

Lemma existsb_eqb_In (k : nat) (l : list nat) :
  existsb (Nat.eqb k) l = true <-> In k l.
Proof.
  rewrite existsb_exists. split.
  - intros (x & I & E). apply Nat.eqb_eq in E. now subst.
  - intros I. exists k. now rewrite Nat.eqb_refl.
Qed.

Lemma existsb_eqb_notIn (k : nat) (l : list nat) :
  existsb (Nat.eqb k) l = false <-> ~ In k l.
Proof.
  rewrite <- existsb_eqb_In. now destruct (existsb (Nat.eqb k) l).
Qed.

Lemma distinct_NoDup (l : list nat) : distinct l = true <-> NoDup l.
Proof.
  induction l as [|k l IH]; cbn [distinct].
  - split; [constructor|reflexivity].
  - rewrite andb_true_iff, negb_true_iff, existsb_eqb_notIn, IH. split.
    + intros [A B]. now constructor.
    + intros N. inversion N. auto.
Qed.






End ClickFacts.

Section ClickTheorem.

Import Validation.

Lemma sameInputs_sym (cs cs' : list DOM.Control) :
  sameInputs cs cs' -> sameInputs cs' cs.
Proof. unfold sameInputs. congruence. Qed.

Lemma sameDocument_refl (s : State) : sameDocument s s.
Proof. split; reflexivity. Qed.

Lemma sameDocument_trans (a b c : State) :
  sameDocument a b -> sameDocument b c -> sameDocument a c.
Proof. unfold sameDocument, sameInputs. intros [A1 A2] [B1 B2]. split; congruence. Qed.

Lemma sameInputs_length (cs cs' : list DOM.Control) :
  sameInputs cs cs' -> List.length cs = List.length cs'.
Proof.
  unfold sameInputs. intros E. apply (f_equal (@List.length _)) in E.
  now rewrite !length_map in E.
Qed.

Lemma sameInputs_nth_none (cs cs' : list DOM.Control) (i : nat) :
  sameInputs cs cs' -> nth_error cs i = None -> nth_error cs' i = None.
Proof.
  intros E N. apply nth_error_None. rewrite <- (sameInputs_length _ _ E).
  now apply nth_error_None.
Qed.

Lemma nodeIds_updateAll (sel : DOM.Node -> bool) (f : DOM.Node -> DOM.Node)
      (l : list DOM.Node) :
  (forall n, DOM.nodeId (f n) = DOM.nodeId n) ->
  map DOM.nodeId (DOM.updateAll sel f l) = map DOM.nodeId l.
Proof.
  intros P. unfold DOM.updateAll. rewrite map_map. apply map_ext.
  intros n. destruct (sel n); [apply P|reflexivity].
Qed.

Lemma nodeIds_updateById (i : jsstring) (f : DOM.Node -> DOM.Node)
      (l : list DOM.Node) :
  (forall n, DOM.nodeId (f n) = DOM.nodeId n) ->
  map DOM.nodeId (DOM.updateById i f l) = map DOM.nodeId l.
Proof.
  intros P. induction l as [|n l IH]; [reflexivity|]. cbn [DOM.updateById].
  destruct (jseq (DOM.nodeId n) i); cbn [map]; [now rewrite P|now rewrite IH].
Qed.

Lemma getElementById_none (i : jsstring) (l : list DOM.Node) :
  DOM.getElementById i l = None
  <-> existsb (fun x => jseq x i) (map DOM.nodeId l) = false.
Proof.
  unfold DOM.getElementById. induction l as [|n l IH]; cbn [find map existsb].
  - split; reflexivity.
  - destruct (jseq (DOM.nodeId n) i); cbn [orb]; [split; discriminate|exact IH].
Qed.

Lemma getElementById_sameIds (i : jsstring) (l l' : list DOM.Node) :
  map DOM.nodeId l = map DOM.nodeId l' ->
  (DOM.getElementById i l = None <-> DOM.getElementById i l' = None).
Proof. intros E. rewrite !getElementById_none. now rewrite E. Qed.

Lemma getErrorId_sameControl (a b : DOM.Control) :
  sameControl a b -> getErrorId a = getErrorId b.
Proof.
  unfold sameControl, DOM.setIsError. destruct a, b; cbn. intros E.
  injection E as -> -> -> -> -> -> -> -> -> -> -> -> ->. reflexivity.
Qed.

Context `{Host}.

Lemma errorMessageOf_sameControl (cs : list DOM.Control) (a b : DOM.Control) :
  sameControl a b -> errorMessageOf cs a = errorMessageOf cs b.
Proof.
  unfold sameControl, DOM.setIsError. destruct a, b; cbn. intros E.
  injection E as -> -> -> -> -> -> -> -> -> -> -> -> ->. reflexivity.
Qed.

Lemma valid_sameDocument (s s' : State) (i : nat) :
  sameDocument s s' -> valid s i = valid s' i.
Proof.
  intros [C _]. unfold valid.
  destruct (nth_error (controls s) i) as [a|] eqn:N.
  - destruct (sameInputs_nth _ _ i _ C N) as (a' & -> & E).
    now rewrite (errorMessageOf_sameInputs _ _ a C), (errorMessageOf_sameControl _ a a' E).
  - now rewrite (sameInputs_nth_none _ _ i C N).
Qed.

Lemma resetInputErrorState_nodeIds (i : nat) (input : DOM.Control) (s : State) :
  map DOM.nodeId (nodes (fst (resetInputErrorState i input s))) = map DOM.nodeId (nodes s).
Proof.
  destruct (resetInputErrorState_cases i input) as [T|(upd & labels & U & R)].
  - now rewrite T.
  - rewrite R. cbn [fst nodes].
    destruct (truthyOpt (DOM.errorId input));
      rewrite ?nodeIds_updateById, ?nodeIds_updateAll, ?nodeIds_updateById;
      reflexivity.
Qed.

Lemma handle_sameDocument (i : nat) (input : DOM.Control) (s : State) :
  sameDocument s (fst (handle i input s)).
Proof.
  split; [apply sameInputs_sym, handle_controls|].
  pose proof (handle_cases i input s) as C.
  destruct (pastedValue (DOM.id input) (DOM.forSelector (DOM.id input)));
    [|now rewrite C].
  destruct (errorMessageOf (controls s) input) as [e|[|x m]].
  - now rewrite C.
  - rewrite C.
    pose proof (resetInputErrorState_nodeIds i input
                  (mkState (controls s) (nodes s) (mapSet i false (isInvalid s)))) as R.
    destruct (resetInputErrorState i input _) as [s' [e|]]; cbn [fst nodes] in R |- *;
      now rewrite R.
  - cbv zeta in C.
    destruct (DOM.getElementById (getErrorId input) (nodes s)); rewrite C;
      cbn [fst nodes];
      rewrite ?nodeIds_updateById, ?nodeIds_updateAll; reflexivity.
Qed.

(** How an evaluation completes depends on the document only up to the
    error markers and the content of the elements. *)
Lemma getHandler_completion (i : nat) (s t : State) :
  sameDocument s t -> snd (getHandler i s) = snd (getHandler i t).
Proof.
  intros [C D]. unfold getHandler.
  destruct (nth_error (controls s) i) as [a|] eqn:N.
  - destruct (sameInputs_nth _ _ i _ C N) as (a' & -> & E).
    rewrite (handle_sameControl i a a' s E).
    pose proof (handle_cases i a' s) as Cs. pose proof (handle_cases i a' t) as Ct.
    rewrite (errorMessageOf_sameInputs _ _ a' C) in Cs.
    destruct (pastedValue (DOM.id a') (DOM.forSelector (DOM.id a')));
      [|now rewrite Cs, Ct].
    destruct (errorMessageOf (controls t) a') as [e|[|x m]].
    + now rewrite Cs, Ct.
    + rewrite Cs, Ct.
      destruct (resetInputErrorState_cases i a') as [T|(upd & labels & U & R)].
      * now rewrite !T.
      * now rewrite !R.
    + cbv zeta in Cs, Ct.
      pose proof (getElementById_sameIds (getErrorId a') _ _ D) as G.
      destruct (DOM.getElementById (getErrorId a') (nodes s)),
               (DOM.getElementById (getErrorId a') (nodes t));
        rewrite Cs, Ct; try reflexivity.
      * discriminate (proj2 G eq_refl).
      * discriminate (proj1 G eq_refl).
  - now rewrite (sameInputs_nth_none _ _ i C N).
Qed.

Lemma throws_sameDocument (s s' : State) (i : nat) :
  sameDocument s s' -> throws s i = throws s' i.
Proof.
  intros D. unfold throws. now rewrite (getHandler_completion i s s' D).
Qed.

(** One evaluation: it throws or it records the validity of the control. *)
Lemma getHandler_step (i : nat) (s : State) :
  sameDocument s (fst (getHandler i s))
  /\ (throws s i = true -> exists e, snd (getHandler i s) = Throw e)
  /\ (throws s i = false ->
      (exists b, snd (getHandler i s) = Normal b)
      /\ isInvalid (fst (getHandler i s)) = mapSet i (negb (valid s i)) (isInvalid s)).
Proof.
  split; [|split].
  - unfold getHandler.
    destruct (nth_error (controls s) i); [apply handle_sameDocument|apply sameDocument_refl].
  - unfold throws. destruct (snd (getHandler i s)) as [b|e]; [discriminate|].
    intros _. now exists e.
  - unfold throws, valid, getHandler.
    destruct (nth_error (controls s) i) as [input|] eqn:N; [|discriminate].
    pose proof (handle_cases i input s) as C.
    destruct (pastedValue (DOM.id input) (DOM.forSelector (DOM.id input)));
      [|rewrite C; discriminate].
    destruct (errorMessageOf (controls s) input) as [e|[|x m]].
    + rewrite C. discriminate.
    + rewrite C.
      pose proof (resetInputErrorState_isInvalid i input
                    (mkState (controls s) (nodes s) (mapSet i false (isInvalid s)))) as R.
      destruct (resetInputErrorState i input _) as [s' [e|]]; cbn [fst snd] in R |- *;
        [discriminate|].
      intros _. split; [now exists Valid|exact R].
    + cbv zeta in C.
      destruct (DOM.getElementById (getErrorId input) (nodes s)); rewrite C;
        cbn [fst snd isInvalid]; [|discriminate].
      intros _. split; [now exists InvalidShown|reflexivity].
Qed.

Lemma forEach_spec (s0 : State) (inputs : list nat) :
  forall s, sameDocument s0 s ->
  sameDocument s0 (fst (forEach inputs s))
  /\ (existsb (throws s0) inputs = true -> exists e, snd (forEach inputs s) = Some e)
  /\ (existsb (throws s0) inputs = false ->
      snd (forEach inputs s) = None
      /\ isInvalid (fst (forEach inputs s))
         = setAll (fun i => negb (valid s0 i)) inputs (isInvalid s)).
Proof.
  induction inputs as [|i inputs IH]; intros s D.
  - cbn [forEach fst snd existsb]. split; [exact D|].
    split; [discriminate|]. intros _. split; reflexivity.
  - cbn [forEach existsb].
    destruct (getHandler_step i s) as (D' & T & F).
    rewrite (throws_sameDocument _ _ i D).
    destruct (getHandler i s) as [s' c]. cbn [fst snd] in D', T, F.
    destruct (throws s i).
    + destruct (T eq_refl) as [e ->]. cbn [orb fst snd].
      split; [exact (sameDocument_trans _ _ _ D D')|].
      split; [now exists e|discriminate].
    + destruct (F eq_refl) as [[b ->] M]. cbn [orb].
      destruct (IH s' (sameDocument_trans _ _ _ D D')) as (D'' & T' & F').
      split; [exact D''|]. split; [exact T'|].
      intros E. destruct (F' E) as [N M']. split; [exact N|].
      rewrite M', M. unfold setAll. cbn [fold_left].
      now rewrite (valid_sameDocument _ _ i D).
Qed.

End ClickTheorem.

Section SubmitClick.

Import Validation.



Context `{Host}.

(** *** The record stays well formed *)

Lemma distinct_snoc (l : list nat) (k : nat) :
  distinct l = true -> existsb (Nat.eqb k) l = false -> distinct (l ++ [k]) = true.
Proof.
  intros D E. apply distinct_NoDup. apply distinct_NoDup in D.
  apply existsb_eqb_notIn in E.
  apply NoDup_app; [exact D|repeat constructor; intros []|].
  intros a I [<-|[]]. contradiction.
Qed.

Lemma wellFormed_mapSet (cs cs' : list DOM.Control) (ns ns' : list DOM.Node)
      (m : list (nat * bool)) (i : nat) (b : bool) :
  List.length cs' = List.length cs -> i < List.length cs ->
  wellFormed (mkState cs ns m) = true ->
  wellFormed (mkState cs' ns' (mapSet i b m)) = true.
Proof.
  unfold wellFormed. cbn [controls isInvalid]. intros -> L W.
  apply andb_true_iff in W as [W1 W2]. rewrite keys_mapSet.
  destruct (existsb (Nat.eqb i) (keys m)) eqn:E; [now rewrite W1, W2|].
  rewrite (distinct_snoc _ _ W1 E), forallb_app, W2. cbn [forallb andb].
  now rewrite (proj2 (Nat.ltb_lt _ _) L).
Qed.

Lemma length_updateNth {A} (f : A -> A) (l : list A) :
  forall i, List.length (DOM.updateNth i f l) = List.length l.
Proof.
  induction l as [|x l IH]; intros [|i]; cbn [DOM.updateNth List.length];
    try reflexivity. now rewrite IH.
Qed.

Lemma length_updateAll {A} (sel : A -> bool) (f : A -> A) (l : list A) :
  List.length (DOM.updateAll sel f l) = List.length l.
Proof. apply length_map. Qed.

(** What an evaluation does to the record. *)
Lemma getHandler_record (i : nat) (s : State) :
  isInvalid (fst (getHandler i s)) = isInvalid s
  \/ i < List.length (controls s)
     /\ exists b, isInvalid (fst (getHandler i s)) = mapSet i b (isInvalid s).
Proof.
  unfold getHandler.
  destruct (nth_error (controls s) i) as [input|] eqn:N; [|now left].
  assert (L : i < List.length (controls s)).
  { apply nth_error_Some. congruence. }
  pose proof (handle_cases i input s) as C.
  destruct (pastedValue (DOM.id input) (DOM.forSelector (DOM.id input)));
    [|rewrite C; now left].
  destruct (errorMessageOf (controls s) input) as [e|[|x m]].
  - rewrite C. now left.
  - right. split; [exact L|]. exists false. rewrite C.
    pose proof (resetInputErrorState_isInvalid i input
                  (mkState (controls s) (nodes s) (mapSet i false (isInvalid s)))) as R.
    destruct (resetInputErrorState i input _) as [s' [e|]]; exact R.
  - right. split; [exact L|]. exists true. cbv zeta in C.
    destruct (DOM.getElementById (getErrorId input) (nodes s)); now rewrite C.
Qed.

Lemma wellFormed_getHandler (i : nat) (s : State) :
  wellFormed s = true -> wellFormed (fst (getHandler i s)) = true.
Proof.
  intros W.
  pose proof (sameInputs_length _ _ (proj1 (proj1 (getHandler_step i s)))) as Len.
  destruct (getHandler_record i s) as [E|(L & b & E)].
  - unfold wellFormed in W |- *. now rewrite E, <- Len.
  - destruct s as [cs ns m]. destruct (fst (getHandler i (mkState cs ns m))) as [cs' ns' m'].
    cbn [controls isInvalid] in *. subst m'.
    apply (wellFormed_mapSet cs cs' ns ns' m i b); [now symmetry|exact L|exact W].
Qed.

Lemma wellFormed_forEach (inputs : list nat) :
  forall s, wellFormed s = true -> wellFormed (fst (forEach inputs s)) = true.
Proof.
  induction inputs as [|i inputs IH]; intros s W; [exact W|].
  cbn [forEach]. pose proof (wellFormed_getHandler i s W) as W'.
  destruct (getHandler i s) as [s' [b|e]]; cbn [fst] in W' |- *;
    [now apply IH|exact W'].
Qed.

Lemma onClick_state (s : State) (net : FetchOutcome) :
  fst (fst (onClick s net)) = fst (forEach (seq 0 (List.length (controls s))) s).
Proof.
  unfold onClick.
  destruct (forEach (seq 0 (List.length (controls s))) s) as [s1 [e|]];
    [reflexivity|].
  destruct (firstInvalid (isInvalid s1)); reflexivity.
Qed.

Lemma edited_updateNth (i : nat) (v : jsstring) (cs : list DOM.Control) :
  edited cs (DOM.updateNth i (DOM.setValue v) cs).
Proof.
  unfold edited. revert i. induction cs as [|c cs IH]; intros [|i];
    cbn [DOM.updateNth map]; try reflexivity.
  now rewrite <- IH.
Qed.

Lemma reachable_typeInto (i : nat) (v : jsstring) (s : State) :
  reachable s -> reachable (typeInto i v s).
Proof. intros R. apply (reach_input i _ s R). apply edited_updateNth. Qed.

(** The record of every state an instance goes through is well formed. *)
Lemma reachable_wellFormed (s : State) : reachable s -> wellFormed s = true.
Proof.
  induction 1 as [form document|i cs' s R IH E|s net R IH].
  - reflexivity.
  - unfold onInput. apply wellFormed_getHandler.
    unfold wellFormed in IH |- *. cbn [controls isInvalid].
    apply (f_equal (@List.length _)) in E. rewrite !length_map in E.
    now rewrite <- E.
  - rewrite onClick_state. now apply wellFormed_forEach.
Qed.


End SubmitClick.

Section ClickExamples.

Import Validation Examples.



End ClickExamples.

Section MoreExamples.

Import Validation Examples.

(** The empty field of the example: its two messages are what the
    children of the error element are parsed from after the evaluation. *)
Lemma error_message_concatenation_witness :
  option_map DOM.content
    (DOM.getElementById (getErrorId (nth 0 (controls shortField) blank))
       (nodes (fst (@getHandler exampleHost 0 shortField))))
  = Some [concatenation
            [@minLength exampleHost (nth 0 (controls shortField) blank);
             maxLength (nth 0 (controls shortField) blank);
             REQUIRED_MESSAGE;
             []]].
Proof.
  pose proof (@error_message_concatenation exampleHost 0
                (nth 0 (controls shortField) blank) shortField REQUIRED_MESSAGE []
                eq_refl eq_refl eq_refl) as (_ & R & _).
  apply (R ltac:(vm_compute; discriminate)). exists InvalidShown. reflexivity.
Defined.


End MoreExamples.

(* ================================================================== *)
(** ** More about [getValues] *)

Section GetValuesFacts.

Import SubmitContact.

Lemma collect_labels (v : Values) (c : DOM.Control) :
  (type v = [] \/ In (type v) categoryLabels) /\ (adv v = [] \/ In (adv v) advLabels) ->
  (type (collect v c) = [] \/ In (type (collect v c)) categoryLabels)
  /\ (adv (collect v c) = [] \/ In (adv (collect v c)) advLabels).
Proof.
  intros [T A]. unfold collect, categoryLabels, advLabels.
  repeat match goal with |- context [if ?b then _ else _] => destruct b end;
    cbn [type adv]; split; try exact T; try exact A; right; cbn [In]; tauto.
Qed.

(** X1.  Whatever the controls of the form hold, the inquiry type sent is
    one of the four fixed labels or empty, and the referral source sent is
    one of the five fixed labels or empty: a raw value of a control never
    takes their place. *)
Theorem getValues_labels (form : list DOM.Control) :
  (type (getValues form) = [] \/ In (type (getValues form)) categoryLabels)
  /\ (adv (getValues form) = [] \/ In (adv (getValues form)) advLabels).
Proof.
  induction form as [|c form IH] using rev_ind.
  - split; left; reflexivity.
  - rewrite getValues_snoc. now apply collect_labels.
Qed.

Lemma collect_field (v : Values) (c : DOM.Control) :
  name (collect v c) = (if isNamed (u16 "name") c then DOM.value c else name v)
  /\ email (collect v c) = (if isNamed (u16 "email") c then DOM.value c else email v)
  /\ detail (collect v c) = (if isNamed (u16 "detail") c then DOM.value c else detail v)
  /\ adv (collect v c) = (if isAdvControl c then advLabel (DOM.value c) else adv v).
Proof.
  unfold collect, isAdvControl, isAdvValue, advLabel, isNamed.
  destruct (jseq (DOM.type c) (u16 "radio")); cbn [negb andb].
  - repeat match goal with |- context [if ?b then _ else _] => destruct b end;
      repeat split; reflexivity.
  - destruct (jseq (DOM.name c) (u16 "name")) eqn:N.
    { apply jseq_eq in N. rewrite N. repeat split. }
    destruct (jseq (DOM.name c) (u16 "companyName")) eqn:C.
    { apply jseq_eq in C. rewrite C. repeat split. }
    destruct (jseq (DOM.name c) (u16 "email")) eqn:E.
    { apply jseq_eq in E. rewrite E. repeat split. }
    destruct (jseq (DOM.name c) (u16 "detail")) eqn:D.
    { apply jseq_eq in D. rewrite D. repeat split. }
    destruct (jseq (DOM.name c) (u16 "adv")) eqn:A; cbn [andb].
    + destruct (jseq (DOM.value c) (u16 "search")); [repeat split|].
      destruct (jseq (DOM.value c) (u16 "sns")); [repeat split|].
      destruct (jseq (DOM.value c) (u16 "friends")); [repeat split|].
      destruct (jseq (DOM.value c) (u16 "blog")); [repeat split|].
      destruct (jseq (DOM.value c) (u16 "other")); repeat split.
    + repeat split.
Qed.

(** X2.  The name, the e-mail address and the detail sent are the values
    of the last control of the form that carries the name "name", "email"
    or "detail" and is not a radio (the empty string when there is none:
    the controls are not required to exist); the referral source is the
    label for the last control named "adv", not a radio, whose value is a
    known referral value. *)
Theorem getValues_fields (form : list DOM.Control) :
  name (getValues form) = lastValue (u16 "name") form
  /\ companyName (getValues form) = lastValue (u16 "companyName") form
  /\ email (getValues form) = lastValue (u16 "email") form
  /\ detail (getValues form) = lastValue (u16 "detail") form
  /\ adv (getValues form) = match find isAdvControl (rev form) with
                            | Some c => advLabel (DOM.value c)
                            | None => []
                            end.
Proof.
  split; [|split; [exact (getValues_companyName form)|]];
    induction form as [|c form IH] using rev_ind;
    try (repeat split; reflexivity).
  - unfold lastValue. rewrite getValues_snoc, rev_app_distr. cbn [rev app find].
    rewrite (proj1 (collect_field (getValues form) c)).
    destruct (isNamed (u16 "name") c); [reflexivity|exact IH].
  - destruct IH as (IH1 & IH2 & IH3).
    unfold lastValue. rewrite getValues_snoc, rev_app_distr. cbn [rev app find].
    destruct (collect_field (getValues form) c) as (_ & E & D & A).
    rewrite E, D, A.
    destruct (isNamed (u16 "email") c), (isNamed (u16 "detail") c), (isAdvControl c);
      repeat split; assumption.
Qed.

End GetValuesFacts.

(* ================================================================== *)
(** ** More about the [replace] of the payload text *)

Section ReplaceMore.

Import SubmitContact.

Lemma scan_nonSpaces (s : jsstring) :
  forall p k, k <= leadingSpaces s -> nonSpaces (scan p k s) = nonSpaces s.
Proof.
  induction s as [|c s IH]; intros p k K; [reflexivity|].
  cbn [leadingSpaces] in K. unfold nonSpaces. cbn [filter]. fold (nonSpaces s).
  destruct k as [|k].
  - rewrite scan_unfold. pose proof (matchLen_le p (c :: s)) as M.
    cbn [leadingSpaces] in M.
    destruct (matchLen p (c :: s)) as [|m].
    + cbn [filter]. fold (nonSpaces (scan (Some c) 0 s)).
      rewrite (IH (Some c) 0) by lia. reflexivity.
    + destruct (isWhiteSpace c); [|lia]. cbn [negb].
      fold (nonSpaces (scan (Some c) m s)). apply IH. lia.
  - cbn [scan]. destruct (isWhiteSpace c); [|lia]. cbn [negb].
    fold (nonSpaces (scan (Some c) k s)). apply IH. lia.
Qed.

Lemma scan_length (s : jsstring) :
  forall p k, List.length (scan p k s) <= List.length s.
Proof.
  induction s as [|c s IH]; intros p k; [reflexivity|].
  destruct k as [|k].
  - rewrite scan_unfold. destruct (matchLen p (c :: s)).
    + cbn [List.length]. specialize (IH (Some c) 0). lia.
    + cbn [List.length]. specialize (IH (Some c) n). lia.
  - cbn [scan List.length]. specialize (IH (Some c) k). lia.
Qed.

(** X3.  The [replace] removes whitespace only: the code units of its
    result that are not whitespace are those of the text it is given, in
    the same order, and the result is not longer than the text.  So no
    character of a label or of a value is lost or altered on the way to
    the payload, whitespace apart. *)
Theorem replaceIndent_keeps_nonspace (s : jsstring) :
  nonSpaces (replaceIndent s) = nonSpaces s
  /\ List.length (replaceIndent s) <= List.length s.
Proof.
  split.
  - apply scan_nonSpaces. lia.
  - apply scan_length.
Qed.

Lemma trailLen_newlines (m : nat) (y : N) (T : jsstring) :
  isWhiteSpace y = false ->
  trailLen (repeat 10%N (S (S m)) ++ y :: T) = S m.
Proof.
  intros Y. induction m as [|m IH].
  - cbn [repeat app]. cbn [trailLen]. rewrite Y.
    change (isWhiteSpace 10) with true. cbn [atLineEnd].
    rewrite (nonspace_not_terminator y Y). reflexivity.
  - change (repeat 10%N (S (S (S m))) ++ y :: T)
      with (10%N :: (repeat 10%N (S (S m)) ++ y :: T)).
    cbn [trailLen]. rewrite IH. reflexivity.
Qed.

Lemma lastOr_newlines (m : nat) :
  lastOr (repeat 10%N m) (Some 10%N) = Some 10%N.
Proof. induction m as [|m IH]; [reflexivity|exact IH]. Qed.

Lemma scan_newlines (m : nat) (x y : N) (T : jsstring) :
  isWhiteSpace x = false -> isWhiteSpace y = false ->
  scan (Some x) 0 (repeat 10%N (S (S m)) ++ y :: T) = y :: scan (Some y) 0 T.
Proof.
  intros X Y.
  pose proof (trailLen_newlines m y T Y) as TL.
  change (repeat 10%N (S (S m)) ++ y :: T)
    with (10%N :: (repeat 10%N (S m) ++ y :: T)) in *.
  rewrite scan_unfold. unfold matchLen. rewrite TL.
  cbn [atLineStart]. rewrite (nonspace_not_terminator x X). cbn [andb].
  replace (repeat 10%N (S m) ++ y :: T)
    with (repeat 10%N m ++ 10%N :: y :: T).
  2:{ clear. induction m as [|m IH]; [reflexivity|]. cbn [repeat app]. now rewrite IH. }
  rewrite <- (repeat_length 10%N m) at 1.
  rewrite scan_skip, lastOr_newlines.
  rewrite scan_unfold. unfold matchLen.
  change (atLineStart (Some 10%N) && (10 =? 10)%N) with true. cbv iota.
  now apply scan_nonspace.
Qed.

(** X4.  Empty lines inside a text do not survive the [replace], and
    neither does the line break before them: two lines separated by one
    or more empty lines are sent as one line, the last character of the
    first immediately followed by the first character of the second. *)
Theorem blank_lines_join (a : jsstring) (x : N) (m : nat) (y : N) (T : jsstring) :
  isWhiteSpace x = false -> isWhiteSpace y = false ->
  replaceIndent (a ++ x :: repeat 10%N (S (S m)) ++ y :: T)
  = replaceIndent (a ++ [x]) ++ y :: scan (Some y) 0 T.
Proof.
  intros X Y. unfold replaceIndent.
  rewrite (scan_split x _ X a None 0) by lia.
  now rewrite (scan_newlines m x y T X Y).
Qed.

Lemma blank_lines_join_witness :
  replaceIndent (u16 "a" ++ 98%N :: repeat 10%N 2 ++ 99%N :: u16 "d")
  = replaceIndent (u16 "a" ++ [98%N]) ++ 99%N :: scan (Some 99%N) 0 (u16 "d").
Proof. apply blank_lines_join; reflexivity. Defined.

(** X5.  Four spaces at the start of a line inside a text are removed by
    the [replace], the line break before them is kept: an indentation of
    four spaces typed by the user does not reach the payload. *)
Theorem line_indent_removed (a : jsstring) (x y : N) (T : jsstring) :
  isWhiteSpace x = false -> isWhiteSpace y = false ->
  replaceIndent (a ++ x :: 10%N :: 32%N :: 32%N :: 32%N :: 32%N :: y :: T)
  = replaceIndent (a ++ [x]) ++ 10%N :: y :: scan (Some y) 0 T.
Proof.
  intros X Y. unfold replaceIndent.
  rewrite (scan_split x _ X a None 0) by lia. f_equal.
  assert (H5 : trailLen (10 :: 32 :: 32 :: 32 :: 32 :: y :: T)%N = 0)
    by exact (trailLen_cons_body 10%N [32; 32; 32; 32]%N y T eq_refl Y).
  assert (H4 : trailLen (32 :: 32 :: 32 :: 32 :: y :: T)%N = 0)
    by exact (trailLen_cons_body 32%N [32; 32; 32]%N y T eq_refl Y).
  rewrite scan_unfold. unfold matchLen. rewrite H5.
  cbn [atLineStart]. rewrite (nonspace_not_terminator x X). cbn [andb]. f_equal.
  rewrite scan_unfold. unfold matchLen. rewrite H4.
  change (atLineStart (Some 10%N)) with true.
  change ((32 =? 10)%N) with false.
  change (fourSpaces (32 :: 32 :: 32 :: 32 :: y :: T)%N) with true.
  cbn [andb].
  change (scan (Some 32%N) 3 (32 :: 32 :: 32 :: y :: T)%N)
    with (scan (Some 32%N) 0 (y :: T)).
  now apply scan_nonspace.
Qed.

Lemma line_indent_removed_witness :
  replaceIndent (u16 "a" ++ 98%N :: 10%N :: 32%N :: 32%N :: 32%N :: 32%N :: 99%N :: u16 "d")
  = replaceIndent (u16 "a" ++ [98%N]) ++ 10%N :: 99%N :: scan (Some 99%N) 0 (u16 "d").
Proof. apply line_indent_removed; reflexivity. Defined.

End ReplaceMore.

(* ================================================================== *)
(** ** The whole text of the payload, for values on one line *)

Section PayloadText.

Import SubmitContact.

Lemma scan_indent (b : jsstring) (x : N) (T : jsstring) :
  noLineTerminator b = true -> isWhiteSpace x = false ->
  scan (Some 10%N) 0 (sixSpaces ++ b ++ x :: T)
  = 32%N :: 32%N :: b ++ x :: scan (Some x) 0 T.
Proof.
  intros B X.
  assert (H6 : trailLen (32 :: 32 :: 32 :: 32 :: 32 :: 32 :: b ++ x :: T)%N = 0).
  { apply (trailLen_cons_body 32%N ([32; 32; 32; 32; 32]%N ++ b) x T); [|exact X].
    rewrite noLineTerminator_app, B. reflexivity. }
  unfold sixSpaces. cbn [app].
  rewrite scan_unfold. unfold matchLen. rewrite H6.
  change (atLineStart (Some 10%N)) with true.
  change ((32 =? 10)%N) with false.
  change (fourSpaces (32 :: 32 :: 32 :: 32 :: 32 :: 32 :: b ++ x :: T)%N) with true.
  cbn [andb].
  change (scan (Some 32%N) 3 (32 :: 32 :: 32 :: 32 :: 32 :: b ++ x :: T)%N)
    with (scan (Some 32%N) 0 (32 :: 32 :: b ++ x :: T)%N).
  apply (scan_body x T X (32 :: 32 :: b)%N 32%N eq_refl). exact B.
Qed.

Lemma scan_newline_indent_body (q : N) (b : jsstring) (x : N) (T : jsstring) :
  isLineTerminator q = false -> noLineTerminator b = true ->
  isWhiteSpace x = false ->
  scan (Some q) 0 (10%N :: sixSpaces ++ b ++ x :: T)
  = 10%N :: 32%N :: 32%N :: b ++ x :: scan (Some x) 0 T.
Proof.
  intros Q B X.
  assert (H7 : trailLen (10%N :: sixSpaces ++ b ++ x :: T) = 0).
  { apply (trailLen_cons_body 10%N (sixSpaces ++ b) x T); [|exact X].
    rewrite noLineTerminator_app, B. reflexivity. }
  rewrite scan_unfold. unfold matchLen. rewrite H7.
  cbn [atLineStart]. rewrite Q. cbn [andb]. f_equal.
  now apply scan_indent.
Qed.

Lemma trailLen_allspace (w : jsstring) :
  forallb isWhiteSpace w = true -> trailLen w = List.length w.
Proof.
  induction w as [|c w IH]; [reflexivity|]. cbn [forallb]. intros W.
  apply andb_true_iff in W as [Wc W]. cbn [trailLen List.length].
  rewrite Wc, (IH W). destruct w; reflexivity.
Qed.

(** A text of whitespace only is removed altogether. *)
Lemma scan_allspace (w : jsstring) :
  forallb isWhiteSpace w = true -> forall p, scan p 0 w = [].
Proof.
  induction w as [|c w IH]; [reflexivity|]. cbn [forallb]. intros W p.
  apply andb_true_iff in W as [Wc W].
  rewrite scan_unfold. unfold matchLen.
  destruct (atLineStart p && (c =? 10)%N); [now apply IH|].
  rewrite (trailLen_allspace (c :: w)) by (cbn [forallb]; now rewrite Wc, W).
  cbn [List.length]. rewrite <- (app_nil_r w) at 2. now rewrite scan_skip.
Qed.

Lemma endsWithSpace_snoc (l : jsstring) :
  truthy l = true -> endsWithSpace l = false ->
  exists b x, l = b ++ [x] /\ isWhiteSpace x = false.
Proof.
  induction l as [|c l IH]; [discriminate|]. intros _ E.
  destruct l as [|d l].
  - exists [], c. split; [reflexivity|exact E].
  - destruct (IH eq_refl E) as (b & x & B & X).
    exists (c :: b), x. rewrite B. split; [reflexivity|exact X].
Qed.

Lemma lastOr_snoc (b : jsstring) (x : N) (o : option N) :
  lastOr (b ++ [x]) o = Some x.
Proof. revert o. induction b as [|c b IH]; intros o; [reflexivity|apply IH]. Qed.

Lemma label_last (l : jsstring) (o : option N) :
  isLabel l = true -> atLineStart (lastOr l o) = false.
Proof.
  unfold isLabel. intros L.
  apply andb_true_iff in L as [L _]. apply andb_true_iff in L as [L E].
  apply andb_true_iff in L as [N _]. apply negb_true_iff in E.
  destruct (endsWithSpace_snoc l N E) as (b & x & -> & X).
  rewrite lastOr_snoc. exact (nonspace_not_terminator x X).
Qed.

(** A label is copied. *)
Lemma scan_label (l : jsstring) (p : N) (T : jsstring) :
  isLineTerminator p = false -> isLabel l = true ->
  scan (Some p) 0 (l ++ T) = l ++ scan (lastOr l (Some p)) 0 T.
Proof.
  unfold isLabel. intros P L.
  apply andb_true_iff in L as [L LT]. apply andb_true_iff in L as [L E].
  apply andb_true_iff in L as [N _]. apply negb_true_iff in E.
  destruct (endsWithSpace_snoc l N E) as (b & x & -> & X).
  rewrite lastOr_snoc, <- !app_assoc. cbn [app].
  rewrite noLineTerminator_app in LT. apply andb_true_iff in LT as [LT _].
  now apply scan_body.
Qed.

(** The first line of the template: the line break that opens the
    template literal goes, two of the six spaces stay. *)
Lemma scan_first (l T : jsstring) :
  isLabel l = true ->
  scan None 0 (LF ++ indent ++ l ++ T)
  = u16 "  " ++ l ++ scan (lastOr l None) 0 T.
Proof.
  unfold isLabel. intros L.
  apply andb_true_iff in L as [L LT]. apply andb_true_iff in L as [L E].
  apply andb_true_iff in L as [N _]. apply negb_true_iff in E.
  destruct (endsWithSpace_snoc l N E) as (b & x & -> & X).
  rewrite lastOr_snoc, <- !app_assoc.
  rewrite noLineTerminator_app in LT. apply andb_true_iff in LT as [LT _].
  change (scan None 0 (LF ++ indent ++ b ++ [x] ++ T))
    with (scan (Some 10%N) 0 (sixSpaces ++ b ++ x :: T)).
  rewrite (scan_indent b x T LT X). reflexivity.
Qed.

(** A value, then the next line of the template with its label. *)
Lemma scan_line (o : option N) (s l T : jsstring) :
  atLineStart o = false -> noLineTerminator s = true -> isLabel l = true ->
  scan o 0 (s ++ LF ++ indent ++ l ++ T)
  = trimEnd s ++ LF ++ u16 "  " ++ l ++ scan (lastOr l o) 0 T.
Proof.
  intros O S L. destruct o as [p|]; [|discriminate]. cbn [atLineStart] in O.
  destruct l as [|y r] eqn:El; [discriminate|].
  assert (Y : isWhiteSpace y = false).
  { unfold isLabel in L. apply andb_true_iff in L as [L _].
    apply andb_true_iff in L as [L _]. apply andb_true_iff in L as [_ L].
    now apply negb_true_iff in L. }
  change (s ++ LF ++ indent ++ (y :: r) ++ T)
    with (s ++ 10%N :: sixSpaces ++ y :: (r ++ T)).
  rewrite (scan_value y (r ++ T) s p Y O S).
  change (LF ++ u16 "  " ++ (y :: r) ++ scan (lastOr (y :: r) (Some p)) 0 T)
    with (10%N :: 32%N :: 32%N :: y :: (r ++ scan (lastOr r (Some y)) 0 T)).
  do 5 f_equal.
  destruct r as [|z r']; [reflexivity|].
  destruct (endsWithSpace_snoc (y :: z :: r') eq_refl) as (b & x & B & X).
  { unfold isLabel in L. apply andb_true_iff in L as [L _].
    apply andb_true_iff in L as [_ L]. now apply negb_true_iff in L. }
  destruct b as [|y' b]; [discriminate|]. injection B as <- B.
  rewrite B, lastOr_snoc, <- !app_assoc. cbn [app].
  apply (scan_body x T X b y (nonspace_not_terminator y Y)).
  unfold isLabel in L. apply andb_true_iff in L as [_ L].
  rewrite B in L. cbn [noLineTerminator forallb] in L.
  apply andb_true_iff in L as [_ L].
  change (noLineTerminator (b ++ [x]) = true) in L.
  rewrite noLineTerminator_app in L. now apply andb_true_iff in L as [L _].
Qed.

Lemma scan_line0 (o : option N) (l T : jsstring) :
  atLineStart o = false -> isLabel l = true ->
  scan o 0 (LF ++ indent ++ l ++ T)
  = LF ++ u16 "  " ++ l ++ scan (lastOr l o) 0 T.
Proof. intros O L. exact (scan_line o [] l T O eq_refl L). Qed.

(** The last line of the template: a value, then the line break and the
    indentation before the closing backtick. *)
Lemma scan_last_line (o : option N) (d : jsstring) :
  atLineStart o = false -> noLineTerminator d = true ->
  scan o 0 (LF ++ indent ++ d ++ LF ++ indent)
  = match trimEnd d with
    | [] => []
    | _ :: _ => LF ++ u16 "  " ++ trimEnd d
    end.
Proof.
  intros O D. destruct o as [p|]; [|discriminate]. cbn [atLineStart] in O.
  destruct (trimEnd_decomp d) as (w & E & W & C).
  destruct C as [C|(b & x & C & X)].
  - rewrite C. apply scan_allspace.
    rewrite C in E. cbn [app] in E. subst w.
    rewrite !forallb_app, W. reflexivity.
  - rewrite E in D. rewrite E at 1. rewrite C in *.
    rewrite !noLineTerminator_app in D.
    apply andb_true_iff in D as [D _]. apply andb_true_iff in D as [D _].
    replace (LF ++ indent ++ ((b ++ [x]) ++ w) ++ LF ++ indent)
      with (10%N :: sixSpaces ++ b ++ x :: (w ++ LF ++ indent)).
    2:{ rewrite <- !app_assoc. reflexivity. }
    rewrite (scan_newline_indent_body p b x _ O D X).
    rewrite scan_allspace by (rewrite !forallb_app, W; reflexivity).
    destruct b; reflexivity.
Qed.

Lemma orElse_noLineTerminator (a b : jsstring) :
  noLineTerminator a = true -> noLineTerminator b = true ->
  noLineTerminator (orElse a b) = true.
Proof. intros A B. unfold orElse. now destruct (truthy a). Qed.

(** X6.  When no value holds a line terminator, the text sent has seven
    lines, or eight when the detail is not blank: each line of the
    template with two spaces of indentation, its label, and the value
    without its trailing whitespace (leading whitespace is kept); a detail
    of whitespace only leaves no eighth line and no line break after the
    seventh. *)
Theorem payloadText_single_line (v : Values) :
  noLineTerminator (adv v) = true -> noLineTerminator (type v) = true ->
  noLineTerminator (name v) = true -> noLineTerminator (companyName v) = true ->
  noLineTerminator (email v) = true -> noLineTerminator (detail v) = true ->
  payloadText v =
    (u16 "  " ++ u16 "お問い合わせがありました。") ++ LF ++
    (u16 "  " ++ u16 "PON DESIGNをどちらでお知りになりましたか？：") ++ trimEnd (adv v) ++ LF ++
    (u16 "  " ++ u16 "お問合せ種別：") ++ trimEnd (type v) ++ LF ++
    (u16 "  " ++ u16 "お名前：") ++ trimEnd (name v) ++ LF ++
    (u16 "  " ++ u16 "会社名：") ++ trimEnd (orElse (companyName v) (u16 "記入なし")) ++ LF ++
    (u16 "  " ++ u16 "メールアドレス：") ++ trimEnd (email v) ++ LF ++
    (u16 "  " ++ u16 "【お問合せ内容】") ++
    match trimEnd (detail v) with
    | [] => []
    | _ :: _ => LF ++ u16 "  " ++ trimEnd (detail v)
    end.
Proof.
  intros A T N C E D.
  pose proof (orElse_noLineTerminator (companyName v) (u16 "記入なし") C eq_refl) as C'.
  unfold payloadText, replaceIndent, template.
  rewrite scan_first by (vm_compute; reflexivity).
  rewrite scan_line0 by (vm_compute; reflexivity).
  rewrite (scan_line _ (adv v)) by first [assumption | vm_compute; reflexivity].
  rewrite (scan_line _ (type v)) by first [assumption | vm_compute; reflexivity].
  rewrite (scan_line _ (name v)) by first [assumption | vm_compute; reflexivity].
  rewrite (scan_line _ (orElse (companyName v) (u16 "記入なし")))
    by first [assumption | vm_compute; reflexivity].
  rewrite (scan_line _ (email v)) by first [assumption | vm_compute; reflexivity].
  rewrite scan_last_line by first [assumption | vm_compute; reflexivity].
  rewrite <- !app_assoc. reflexivity.
Qed.

(** The values of the example form hold no line terminator. *)
Lemma payloadText_single_line_witness :
  payloadText (getValues Examples.companyForm) =
    (u16 "  " ++ u16 "お問い合わせがありました。") ++ LF ++
    (u16 "  " ++ u16 "PON DESIGNをどちらでお知りになりましたか？：")
      ++ trimEnd (adv (getValues Examples.companyForm)) ++ LF ++
    (u16 "  " ++ u16 "お問合せ種別：") ++ trimEnd (type (getValues Examples.companyForm)) ++ LF ++
    (u16 "  " ++ u16 "お名前：") ++ trimEnd (name (getValues Examples.companyForm)) ++ LF ++
    (u16 "  " ++ u16 "会社名：")
      ++ trimEnd (orElse (companyName (getValues Examples.companyForm)) (u16 "記入なし")) ++ LF ++
    (u16 "  " ++ u16 "メールアドレス：") ++ trimEnd (email (getValues Examples.companyForm)) ++ LF ++
    (u16 "  " ++ u16 "【お問合せ内容】") ++
    match trimEnd (detail (getValues Examples.companyForm)) with
    | [] => []
    | _ :: _ => LF ++ u16 "  " ++ trimEnd (detail (getValues Examples.companyForm))
    end.
Proof.
  apply payloadText_single_line; vm_compute; reflexivity.
Defined.

End PayloadText.

(* ================================================================== *)
(** ** More about the rules *)

Section RuleMore.

Import Validation.

Lemma trimStart_spaces_app (w v : jsstring) :
  forallb isWhiteSpace w = true -> trimStart (w ++ v) = trimStart v.
Proof.
  induction w as [|c w IH]; [reflexivity|]. cbn [forallb app trimStart].
  intros W. apply andb_true_iff in W as [Wc W]. rewrite Wc. exact (IH W).
Qed.

Lemma forallb_rev {A} (f : A -> bool) (l : list A) :
  forallb f (rev l) = forallb f l.
Proof.
  induction l as [|x l IH]; [reflexivity|]. cbn [rev forallb].
  rewrite forallb_app, IH. cbn [forallb]. rewrite andb_true_r. apply andb_comm.
Qed.

Lemma trimEnd_app_spaces (v w : jsstring) :
  forallb isWhiteSpace w = true -> trimEnd (v ++ w) = trimEnd v.
Proof.
  intros W. unfold trimEnd. rewrite rev_app_distr.
  rewrite trimStart_spaces_app; [reflexivity|]. now rewrite forallb_rev.
Qed.

(** [trim] does not see whitespace around a text. *)
Lemma trim_pad (w v w' : jsstring) :
  forallb isWhiteSpace w = true -> forallb isWhiteSpace w' = true ->
  trim (w ++ v ++ w') = trim v.
Proof.
  intros W W'. unfold trim. rewrite (trimStart_spaces_app w _ W).
  induction v as [|c v IH].
  - cbn [app]. rewrite <- (app_nil_r w'), (trimStart_spaces_app w' [] W').
    reflexivity.
  - cbn [app trimStart]. destruct (isWhiteSpace c); [exact IH|].
    exact (trimEnd_app_spaces (c :: v) w' W').
Qed.

Lemma showZ_minus_one : showZ (-1) = u16 "-1".
Proof. vm_compute. reflexivity. Qed.

Context `{Host}.

(** X7.  The rules on the length and the rule on required controls do not
    see whitespace around the value: a value and the same value with
    whitespace before and after it get the same messages.  (With an empty
    value in the middle: a value of whitespace only is an empty one.) *)
Theorem rules_ignore_padding (form : list DOM.Control) (c : DOM.Control)
        (w v w' : jsstring) :
  forallb isWhiteSpace w = true -> forallb isWhiteSpace w' = true ->
  minLength (DOM.setValue (w ++ v ++ w') c) = minLength (DOM.setValue v c)
  /\ maxLength (DOM.setValue (w ++ v ++ w') c) = maxLength (DOM.setValue v c)
  /\ required form (DOM.setValue (w ++ v ++ w') c) = required form (DOM.setValue v c).
Proof.
  intros W W'. pose proof (trim_pad w v w' W W') as T.
  unfold minLength, maxLength, required, maxLengthProp. destruct c.
  cbn [DOM.setValue DOM.value DOM.minlengthAttr DOM.maxlengthAttr DOM.required
       DOM.type DOM.element DOM.checked DOM.name DOM.nameAttr DOM.errorMessage].
  rewrite T. repeat split.
Qed.

(** X8.  A control whose maxlength attribute is not empty but is not a
    non-negative integer fails the rule on the maximal length whatever
    its value, the empty one included: the limit read is [-1] and the
    message names it; on a [select] element the limit is [undefined] and
    the rule fails as well. *)
Theorem maxLength_unparsable (c : DOM.Control) (a : jsstring) :
  DOM.maxlengthAttr c = Some a -> truthy a = true ->
  parseNonNegativeInteger a = None ->
  maxLength c
  = match DOM.element c with
    | DOM.Select _ => u16 "undefined"
    | _ => u16 "-1"
    end ++ u16 "文字以下で入力してください。".
Proof.
  intros A T P. unfold maxLength, maxLengthProp. rewrite A. cbn [truthyOpt].
  rewrite T, P. cbn [negb].
  assert (L : (Z.of_nat (List.length (trim (DOM.value c))) <=? -1)%Z = false)
    by (apply Z.leb_gt; lia).
  destruct (DOM.element c); try rewrite L; try rewrite showZ_minus_one; reflexivity.
Qed.

End RuleMore.

Section RuleMoreExamples.

Import Validation Examples.

Lemma rules_ignore_padding_witness :
  @minLength exampleHost (DOM.setValue (u16 " " ++ u16 "ab" ++ u16 "  ") (minlengthField "code" "3" ""))
  = @minLength exampleHost (DOM.setValue (u16 "ab") (minlengthField "code" "3" ""))
  /\ maxLength (DOM.setValue (u16 " " ++ u16 "ab" ++ u16 "  ") (minlengthField "code" "3" ""))
     = maxLength (DOM.setValue (u16 "ab") (minlengthField "code" "3" ""))
  /\ @required exampleHost []
       (DOM.setValue (u16 " " ++ u16 "ab" ++ u16 "  ") (minlengthField "code" "3" ""))
     = @required exampleHost [] (DOM.setValue (u16 "ab") (minlengthField "code" "3" "")).
Proof.
  apply (@rules_ignore_padding exampleHost); reflexivity.
Defined.

Lemma maxLength_unparsable_witness :
  maxLength MoreForms.maxlengthField = u16 "-1" ++ u16 "文字以下で入力してください。".
Proof.
  apply (maxLength_unparsable MoreForms.maxlengthField (u16 "abc")); reflexivity.
Defined.

End RuleMoreExamples.

(* ================================================================== *)
(** ** More about [getHandler] *)

Section HandlerMore.

Import Validation.

Lemma sameNodes_refl (ns : list DOM.Node) : sameNodes ns ns.
Proof. reflexivity. Qed.

Lemma sameNodes_trans (a b c : list DOM.Node) :
  sameNodes a b -> sameNodes b c -> sameNodes a c.
Proof. unfold sameNodes. congruence. Qed.

Lemma sameNodes_updateAll (sel : DOM.Node -> bool) (f : DOM.Node -> DOM.Node)
      (l : list DOM.Node) :
  (forall n, DOM.setHasError false (DOM.clearContent (f n))
             = DOM.setHasError false (DOM.clearContent n)) ->
  sameNodes l (DOM.updateAll sel f l).
Proof.
  intros F. unfold sameNodes, DOM.updateAll. rewrite map_map. apply map_ext.
  intros n. destruct (sel n); [now rewrite F|reflexivity].
Qed.

Lemma sameNodes_updateById (i : jsstring) (f : DOM.Node -> DOM.Node)
      (l : list DOM.Node) :
  (forall n, DOM.setHasError false (DOM.clearContent (f n))
             = DOM.setHasError false (DOM.clearContent n)) ->
  sameNodes l (DOM.updateById i f l).
Proof.
  intros F. unfold sameNodes. induction l as [|n l IH]; [reflexivity|].
  cbn [DOM.updateById]. destruct (jseq (DOM.nodeId n) i); cbn [map].
  - now rewrite F.
  - now rewrite IH.
Qed.

Lemma resetInputErrorState_nodes `{Host} (i : nat) (input : DOM.Control) (s : State) :
  sameNodes (nodes s) (nodes (fst (resetInputErrorState i input s))).
Proof.
  destruct (resetInputErrorState_cases i input) as [T|(upd & labels & U & R)].
  - rewrite T. apply sameNodes_refl.
  - rewrite R. cbn [fst nodes].
    set (n1 := DOM.updateById _ _ (nodes s)).
    set (n2 := DOM.updateAll _ _ n1).
    assert (S1 : sameNodes (nodes s) n1) by (apply sameNodes_updateById; reflexivity).
    assert (S2 : sameNodes n1 n2) by (apply sameNodes_updateAll; reflexivity).
    destruct (truthyOpt (DOM.errorId input)).
    + eapply sameNodes_trans; [exact S1|]. eapply sameNodes_trans; [exact S2|].
      apply sameNodes_updateById. reflexivity.
    + eapply sameNodes_trans; eassumption.
Qed.

Lemma nth_error_updateAll {A} (sel : A -> bool) (f : A -> A) (l : list A) (j : nat) :
  nth_error (DOM.updateAll sel f l) j
  = option_map (fun x => if sel x then f x else x) (nth_error l j).
Proof. unfold DOM.updateAll. apply nth_error_map. Qed.

Lemma getElementById_updateById_any (i k : jsstring) (f : DOM.Node -> DOM.Node)
      (l : list DOM.Node) :
  (forall n, DOM.nodeId (f n) = DOM.nodeId n) ->
  DOM.getElementById i (DOM.updateById k f l)
  = option_map (fun n => if jseq k i then f n else n) (DOM.getElementById i l).
Proof.
  intros F. unfold DOM.getElementById.
  induction l as [|n l IH]; [reflexivity|]. cbn [DOM.updateById find].
  destruct (jseq (DOM.nodeId n) k) eqn:K, (jseq (DOM.nodeId n) i) eqn:I;
    cbn [find]; rewrite ?F, ?I; cbn [option_map].
  - apply jseq_eq in K, I. rewrite <- K, <- I. now rewrite jseq_refl.
  - destruct (jseq k i) eqn:KI.
    + apply jseq_eq in K, KI. subst. now rewrite jseq_refl in I.
    + now destruct (find _ l).
  - destruct (jseq k i) eqn:KI; [|reflexivity].
    apply jseq_eq in I, KI. subst. now rewrite jseq_refl in K.
  - exact IH.
Qed.

Lemma mapGet_absent (k : nat) (m : list (nat * bool)) :
  existsb (Nat.eqb k) (keys m) = false -> mapGet k m = None.
Proof.
  unfold keys. induction m as [|[k' v] m IH]; [reflexivity|].
  cbn [map fst existsb mapGet]. destruct (k =? k'); [discriminate|exact IH].
Qed.

Context `{Host}.

Lemma accepted_spec (n text : jsstring) :
  accepted n text <-> exists v, pastedValue n text = Some v.
Proof.
  unfold accepted, pastedValue. destruct (DOM.cssPlain n).
  - split; [intros _; now exists n|now left].
  - destruct (selectorValue text) as [v|].
    + split; [intros _; now exists v|intros _; right; discriminate].
    + split; [intros [E|E]; [discriminate|contradiction]|intros [v E]; discriminate].
Qed.

Lemma pastedValue_plain (n text : jsstring) :
  DOM.cssPlain n = true -> pastedValue n text = Some n.
Proof. intros P. unfold pastedValue. now rewrite P. Qed.

(** An evaluation leaves the record entries of the other controls. *)
Lemma getHandler_record_other (i : nat) (s : State) (j : nat) :
  j <> i -> mapGet j (isInvalid (fst (getHandler i s))) = mapGet j (isInvalid s).
Proof.
  intros J. destruct (getHandler_record i s) as [E|(_ & b & E)]; rewrite E;
    [reflexivity|now apply mapGet_mapSet_other].
Qed.

(** X9.  A control that is not required and declares neither a minimal
    nor a maximal length is valid whatever it holds, provided the
    selectors made of its id and, for a radio button, of its name are
    accepted: its evaluation ends in the valid branch and records it as
    valid.  In particular a pattern is enforced on required controls
    only, and the pattern of such a control is never compiled. *)
Theorem optional_control_is_valid (i : nat) (input : DOM.Control) (s : State) :
  nth_error (controls s) i = Some input ->
  DOM.required input = false ->
  truthyOpt (DOM.minlengthAttr input) = false ->
  truthyOpt (DOM.maxlengthAttr input) = false ->
  accepted (DOM.id input) (DOM.forSelector (DOM.id input)) ->
  (DOM.type input = u16 "radio" ->
   accepted (DOM.name input) (DOM.radioSelector (DOM.name input) false)) ->
  snd (getHandler i s) = Normal Valid
  /\ mapGet i (isInvalid (fst (getHandler i s))) = Some false.
Proof.
  intros N R Mi Ma I Nm.
  apply accepted_spec in I as [labels I].
  assert (E : errorMessageOf (controls s) input = inr []).
  { unfold errorMessageOf, pattern, minLength, maxLength, required.
    rewrite R, Mi, Ma, orb_true_r. reflexivity. }
  unfold getHandler. rewrite N.
  pose proof (handle_cases i input s) as C.
  rewrite I, E in C. rewrite C.
  unfold resetInputErrorState. rewrite I.
  destruct (jseq (DOM.type input) (u16 "radio")) eqn:T.
  - apply jseq_eq in T. destruct (proj1 (accepted_spec _ _) (Nm T)) as [v V].
    rewrite V. cbn [fst snd isInvalid]. split; [reflexivity|apply mapGet_mapSet].
  - cbn [fst snd isInvalid]. split; [reflexivity|apply mapGet_mapSet].
Qed.

(** X10.  The evaluation of a control ends in the valid branch exactly
    when the selector for its labels is accepted, each of the four rules
    returns the empty message for it and, for a radio button, the selector
    for its group is accepted. *)
Theorem valid_iff_rules_pass (i : nat) (input : DOM.Control) (s : State) :
  nth_error (controls s) i = Some input ->
  (snd (getHandler i s) = Normal Valid
   <-> accepted (DOM.id input) (DOM.forSelector (DOM.id input))
       /\ minLength input = [] /\ maxLength input = []
       /\ required (controls s) input = Some [] /\ pattern input = Some []
       /\ (DOM.type input = u16 "radio" ->
           accepted (DOM.name input) (DOM.radioSelector (DOM.name input) false))).
Proof.
  intros N. unfold getHandler. rewrite N.
  pose proof (handle_cases i input s) as C.
  rewrite !accepted_spec.
  destruct (pastedValue (DOM.id input) (DOM.forSelector (DOM.id input)))
    as [labels|] eqn:L.
  2:{ rewrite C. split; [discriminate|]. intros ([v E] & _). discriminate. }
  unfold errorMessageOf in C.
  destruct (required (controls s) input) as [r|].
  2:{ rewrite C. split; [discriminate|]. intros (_ & _ & _ & R & _). discriminate. }
  destruct (pattern input) as [p|].
  2:{ rewrite C. split; [discriminate|]. intros (_ & _ & _ & _ & P & _). discriminate. }
  set (ms := [minLength input; maxLength input; r; p]) in *.
  assert (Z : result ms = [] <->
              minLength input = [] /\ maxLength input = [] /\ r = [] /\ p = []).
  { rewrite result_nil, filter_nil. unfold ms. split.
    - intros A.
      assert (T : forall x, truthy x = false -> x = []) by (now intros [|? ?]).
      repeat split; apply T, A; cbn [In]; tauto.
    - intros (-> & -> & -> & ->) x [<-|[<-|[<-|[<-|[]]]]]; reflexivity. }
  destruct (result ms) as [|x m] eqn:Rm.
  - rewrite C. destruct (proj1 Z eq_refl) as (Z1 & Z2 & -> & ->).
    unfold resetInputErrorState. rewrite L.
    destruct (jseq (DOM.type input) (u16 "radio")) eqn:T.
    + apply jseq_eq in T.
      destruct (pastedValue (DOM.name input) (DOM.radioSelector (DOM.name input) false))
        as [v|] eqn:G; cbn [snd].
      * split; [intros _|reflexivity].
        repeat split; auto. { now exists labels. } intros _. now exists v.
      * split; [discriminate|]. intros (_ & _ & _ & _ & _ & A).
        destruct (A T) as [v E]. discriminate.
    + cbn [snd]. split; [intros _|reflexivity].
      repeat split; auto. { now exists labels. }
      intros T'. apply jseq_neq in T. contradiction.
  - cbv zeta in C. split.
    + destruct (DOM.getElementById (getErrorId input) (nodes s));
        rewrite C; discriminate.
    + intros (_ & Z1 & Z2 & [= ->] & [= ->] & _).
      assert (X : x :: m = []) by (apply Z; auto). discriminate.
Qed.

(** X11.  An evaluation changes nothing of the controls but error
    markers, nothing of the other elements but error markers and content,
    and nothing of the record but the entry of the control evaluated: the
    other entries keep their state and the entries present keep their
    order.  When the control had no entry, it takes the last place if
    the evaluation records it, and the record is as it was if the
    evaluation throws before it records anything. *)
Theorem getHandler_frame (i : nat) (s : State) :
  sameInputs (controls s) (controls (fst (getHandler i s)))
  /\ sameNodes (nodes s) (nodes (fst (getHandler i s)))
  /\ (forall j, j <> i ->
        mapGet j (isInvalid (fst (getHandler i s))) = mapGet j (isInvalid s))
  /\ keys (isInvalid (fst (getHandler i s)))
     = (if existsb (Nat.eqb i) (keys (isInvalid s)) then keys (isInvalid s)
        else match mapGet i (isInvalid (fst (getHandler i s))) with
             | Some _ => keys (isInvalid s) ++ [i]
             | None => keys (isInvalid s)
             end).
Proof.
  split; [exact (proj1 (proj1 (getHandler_step i s)))|].
  split; [|split; [intros j J; now apply getHandler_record_other|]].
  - unfold getHandler.
    destruct (nth_error (controls s) i) as [input|]; [|apply sameNodes_refl].
    pose proof (handle_cases i input s) as C.
    destruct (pastedValue (DOM.id input) (DOM.forSelector (DOM.id input)));
      [|rewrite C; apply sameNodes_refl].
    destruct (errorMessageOf (controls s) input) as [e|[|x m]].
    + rewrite C. apply sameNodes_refl.
    + rewrite C.
      pose proof (resetInputErrorState_nodes i input
                    (mkState (controls s) (nodes s) (mapSet i false (isInvalid s)))) as R.
      destruct (resetInputErrorState i input _) as [s' [e|]]; exact R.
    + cbv zeta in C.
      assert (SN : forall l, sameNodes (nodes s)
                     (DOM.updateAll (DOM.isLabelFor l) (DOM.setHasError true) (nodes s)))
        by (intros l; apply sameNodes_updateAll; reflexivity).
      destruct (DOM.getElementById (getErrorId input) (nodes s)); rewrite C;
        cbn [fst nodes]; [|apply SN].
      eapply sameNodes_trans; [apply SN|]. apply sameNodes_updateById. reflexivity.
  - destruct (getHandler_record i s) as [E|(_ & b & E)]; rewrite E.
    + destruct (existsb (Nat.eqb i) (keys (isInvalid s))) eqn:K; [reflexivity|].
      now rewrite (mapGet_absent _ _ K).
    + rewrite keys_mapSet, mapGet_mapSet. reflexivity.
Qed.

(** X12.  When a radio button whose id and name are made of plain code
    units passes the rules, its evaluation ends in the valid branch,
    removes the error marker from every radio button of the form whose
    name attribute is its name and empties its error element, while the
    record entries of the other controls stay as they are: a member of the
    group recorded as invalid stays so, with no message on display. *)
Theorem valid_radio_clears_group (i : nat) (input : DOM.Control) (s : State) :
  nth_error (controls s) i = Some input ->
  DOM.type input = u16 "radio" ->
  DOM.cssPlain (DOM.id input) = true -> DOM.cssPlain (DOM.name input) = true ->
  errorMessageOf (controls s) input = inr [] ->
  snd (getHandler i s) = Normal Valid
  /\ (forall j c, nth_error (controls (fst (getHandler i s))) j = Some c ->
                  DOM.type c = u16 "radio" ->
                  DOM.nameAttr c = Some (DOM.name input) -> DOM.isError c = false)
  /\ (forall e, DOM.getElementById (getErrorId input) (nodes (fst (getHandler i s))) = Some e ->
                DOM.content e = [])
  /\ (forall j, j <> i ->
        mapGet j (isInvalid (fst (getHandler i s))) = mapGet j (isInvalid s)).
Proof.
  intros N T I Nm E.
  split; [|split; [|split; [|intros j J; now apply getHandler_record_other]]];
    unfold getHandler; rewrite N;
    pose proof (handle_cases i input s) as C;
    rewrite (pastedValue_plain _ _ I), E in C; rewrite C;
    unfold resetInputErrorState;
    rewrite T, jseq_refl, (pastedValue_plain _ _ Nm), (pastedValue_plain _ _ I);
    cbn [fst snd controls nodes isInvalid].
  - reflexivity.
  - intros j c J Tc Nc. rewrite nth_error_updateAll in J.
    destruct (nth_error (controls s) j) as [c0|]; [|discriminate].
    cbn [option_map] in J. injection J as <-.
    destruct (DOM.isRadioNamed (DOM.name input) c0) eqn:R0; [reflexivity|].
    assert (R1 : DOM.isRadioNamed (DOM.name input) c0 = true)
      by (apply isRadioNamed_spec; auto).
    congruence.
  - intros e G.
    assert (G' : option_map DOM.content
                   (DOM.getElementById (getErrorId input)
                      (DOM.updateAll (DOM.isLabelFor (DOM.id input)) (DOM.setHasError false)
                         (DOM.updateById (getErrorId input) DOM.clearContent (nodes s))))
                 = option_map (fun _ => []) (DOM.getElementById (getErrorId input) (nodes s))).
    { rewrite getElementById_updateAll, getElementById_updateById by reflexivity.
      destruct (DOM.getElementById (getErrorId input) (nodes s)) as [n|]; [|reflexivity].
      cbn [option_map]. now destruct (DOM.isLabelFor (DOM.id input) (DOM.clearContent n)). }
    destruct (truthyOpt (DOM.errorId input)).
    + rewrite getElementById_updateById_any in G by reflexivity.
      destruct (DOM.getElementById (getErrorId input) (DOM.updateAll _ _ _)) as [n|];
        [|discriminate].
      cbn [option_map] in G, G'. injection G as <-.
      destruct (DOM.getElementById (getErrorId input) (nodes s)); [|discriminate].
      cbn [option_map] in G'. injection G' as G'.
      now destruct (jseq _ _).
    + rewrite G in G'. cbn [option_map] in G'.
      destruct (DOM.getElementById (getErrorId input) (nodes s)); [|discriminate].
      now injection G'.
Qed.

End HandlerMore.

(* ================================================================== *)
(** ** More about the click on the submit button *)

Section ClickMore.

Import Validation.




Context `{Host}.







(** X18.  A control whose id makes a selector that is refused keeps the
    form from being submitted: every click ends with an exception after
    the default action has been prevented, whatever the controls hold;
    there is neither focus nor request. *)
Theorem refused_selector_blocks_click (s : State) (net : FetchOutcome) (k : nat)
        (input : DOM.Control) :
  nth_error (controls s) k = Some input ->
  ~ accepted (DOM.id input) (DOM.forSelector (DOM.id input)) ->
  getHandler k s = (s, Throw SelectorSyntaxError)
  /\ snd (fst (onClick s net)) = [PreventDefault]
  /\ exists e, snd (onClick s net) = Thrown e.
Proof.
  intros N A.
  assert (G : getHandler k s = (s, Throw SelectorSyntaxError)).
  { unfold getHandler. rewrite N. pose proof (handle_cases k input s) as C.
    destruct (pastedValue (DOM.id input) (DOM.forSelector (DOM.id input))) as [v|] eqn:P;
      [|exact C].
    exfalso. apply A. apply accepted_spec. now exists v. }
  split; [exact G|].
  assert (T : existsb (throws s) (seq 0 (List.length (controls s))) = true).
  { apply existsb_exists. exists k. split.
    - apply in_seq. split; [lia|]. apply nth_error_Some. congruence.
    - unfold throws. now rewrite G. }
  destruct (proj1 (proj2 (forEach_spec s (seq 0 (List.length (controls s))) s
                                      (sameDocument_refl s))) T) as [e E].
  unfold onClick.
  destruct (forEach (seq 0 (List.length (controls s))) s) as [s1 o].
  cbn [snd] in E. subst o. split; [reflexivity|now exists e].
Qed.

End ClickMore.

Section MoreWitnesses.

Import Validation Examples MoreForms.

(** The field is not required: it is valid although its value does not
    match its pattern, which the host would refuse. *)
Lemma optional_control_is_valid_witness :
  snd (@getHandler exampleHost 0 optionalPattern) = Normal Valid
  /\ mapGet 0 (isInvalid (fst (@getHandler exampleHost 0 optionalPattern))) = Some false.
Proof.
  apply (@optional_control_is_valid exampleHost 0 patternField optionalPattern);
    try reflexivity.
  - left. reflexivity.
  - intros T. discriminate T.
Defined.

Lemma valid_iff_rules_pass_witness :
  snd (@getHandler exampleHost 0 twoFields) = Normal Valid
  <-> @accepted exampleHost (DOM.id (requiredField "first" ""))
                (DOM.forSelector (DOM.id (requiredField "first" "")))
      /\ @minLength exampleHost (requiredField "first" "") = []
      /\ maxLength (requiredField "first" "") = []
      /\ @required exampleHost (controls twoFields) (requiredField "first" "") = Some []
      /\ @pattern exampleHost (requiredField "first" "") = Some []
      /\ (DOM.type (requiredField "first" "") = u16 "radio" ->
          @accepted exampleHost (DOM.name (requiredField "first" ""))
                    (DOM.radioSelector (DOM.name (requiredField "first" "")) false)).
Proof.
  apply (@valid_iff_rules_pass exampleHost 0 (requiredField "first" "") twoFields).
  reflexivity.
Defined.

(** The second member of the group is not required: its evaluation takes
    the error marker from the first member, whose entry stays. *)
Lemma valid_radio_clears_group_witness :
  DOM.isError (nth 0 (controls radioGroupShown) blank) = true
  /\ DOM.isError (nth 0 (controls (fst (@getHandler exampleHost 1 radioGroupShown))) blank)
     = false
  /\ mapGet 0 (isInvalid (fst (@getHandler exampleHost 1 radioGroupShown))) = Some true.
Proof.
  pose proof (@valid_radio_clears_group exampleHost 1
                (groupRadio "plan" "plan-b" "plan-error" false false)
                radioGroupShown eq_refl eq_refl eq_refl eq_refl eq_refl)
    as (_ & A & _ & C).
  split; [reflexivity|]. split.
  - exact (A 0 (nth 0 (controls (fst (@getHandler exampleHost 1 radioGroupShown))) blank)
             eq_refl eq_refl eq_refl).
  - rewrite (C 0 ltac:(discriminate)). reflexivity.
Defined.



(** The id of the field holds a double quote: the text made of it is no
    selector, and the click throws although the field passes every
    rule. *)
Lemma refused_selector_blocks_click_witness :
  @valid exampleHost quotedIdForm 0 = true
  /\ @getHandler exampleHost 0 quotedIdForm = (quotedIdForm, Throw SelectorSyntaxError)
  /\ snd (fst (@onClick exampleHost quotedIdForm Pending)) = [PreventDefault].
Proof.
  destruct (@refused_selector_blocks_click exampleHost quotedIdForm Pending 0 quotedIdField
              eq_refl) as (G & E & _).
  - intros [P|S]; [discriminate P|apply S; reflexivity].
  - split; [reflexivity|]. split; [exact G|exact E].
Defined.

End MoreWitnesses.
